(** * VGA-ColorTest: the quantise / darken / tint pipeline of [src/main.cpp]

    A shallow embedding of the pixel pipeline and of the event handler of
    the colour test program, together with the properties of its
    specification.

    - [Uint8] values (colour channels, palette indices) are integers of [Z]
      in [0, 256); a store into a [uint8_t] is written [u8 z = z mod 256].
    - A [double] is an IEEE 754 binary64 number, modelled by the
      Standard Library's executable specification [spec_float] with
      [prec = 53] and [emax = 1024] (round to nearest, ties to even); every
      operation of the source on [double] is one rounded binary64 operation.
    - Pixel memory is a list indexed from 0; a read is [l !! i] and a store
      is [<[i:=x]> l]. A surface of [w * h] pixels is taken to hold its rows
      one after the other without padding, which is how the source indexes
      it, and [w * h] and [i * 3] are taken to fit in an [int].
    - The globals of [main.cpp] are the fields of the record [State].
    - The table [palette] is declared in [main.hpp]; it is a parameter of
      the functions that read it.
    - A call into SDL whose result the source checks can fail: its outcome
      is part of the event. A call whose result the source ignores is taken
      to succeed. *)

From Stdlib Require Import ZArith Lia Bool String.
From Stdlib Require Import Floats.SpecFloat.
From stdpp Require Import base option list.

Local Open Scope Z_scope.

(** ** Machine integers *)

Definition UINT8_MAX : Z := 255.

(** Conversion to [uint8_t]: reduction modulo 2^8. *)
Definition u8 (z : Z) : Z := z mod 256.

Definition is_u8 (z : Z) : Prop := 0 <= z < 256.

(** ** Binary64 arithmetic *)

Module Double.

Definition prec : Z := 53.
Definition emax : Z := 1024.

Definition double : Type := spec_float.

(** The macro [INFINITY]. *)
Definition INFINITY : double := S754_infinity false.

(** Conversion of an [int] to [double]. *)
Definition of_int (z : Z) : double := binary_normalize prec emax z 0 false.

Definition mul (x y : double) : double := SFmul prec emax x y.
Definition add (x y : double) : double := SFadd prec emax x y.
Definition ltb (x y : double) : bool := SFltb x y.

(** The literals [0.30], [0.59] and [0.11], rounded to binary64. *)
Definition c_0_30 : double := S754_finite false 5404319552844595 (-54).
Definition c_0_59 : double := S754_finite false 5314247560297185 (-53).
Definition c_0_11 : double := S754_finite false 7926335344172073 (-56).

(** A number that is neither NaN nor negative: the only values the
    distance computation meets. *)
Definition nonneg (x : double) : bool :=
  match x with
  | S754_zero _ => true
  | S754_infinity s => negb s
  | S754_nan => false
  | S754_finite s _ _ => negb s
  end.

(** The rank of a number in the order of [ltb]: zero, then the finite
    numbers by exponent and mantissa, then infinity. *)
Definition key (x : double) : Z * Z * Z :=
  match x with
  | S754_zero _ => (0, 0, 0)
  | S754_finite _ m e => (1, e, Zpos m)
  | S754_infinity _ => (2, 0, 0)
  | S754_nan => (3, 0, 0)
  end.

Definition lexlt (k1 k2 : Z * Z * Z) : Prop :=
  let '(a1, b1, c1) := k1 in
  let '(a2, b2, c2) := k2 in
  a1 < a2 \/ (a1 = a2 /\ (b1 < b2 \/ (b1 = b2 /\ c1 < c2))).

(** The value of a finite number, in units of 2^-56. *)
Definition val (x : double) : Z :=
  match x with
  | S754_finite _ m e => Zpos m * 2 ^ (e + 56)
  | _ => 0
  end.

(** Zero, or a positive normal number with exponent in [-56, hi]. *)
Definition normal (hi : Z) (x : double) : bool :=
  match x with
  | S754_zero false => true
  | S754_finite false m e =>
      (2 ^ 52 <=? Zpos m) && (Zpos m <? 2 ^ 53) && (-56 <=? e) && (e <=? hi)
  | _ => false
  end.

(** Check of one product [d * d * weight] of the distance, where [weight]
    stands for [hundredths / 100]: the rounded product is normal and within
    2^-26 hundredths of the exact one. *)
Definition product_ok (weight : double) (hundredths d : Z) : bool :=
  let x := mul (of_int (d * d)) weight in
  normal (-30) x &&
  (Z.abs (100 * val x - hundredths * (d * d) * 2 ^ 56) <=? 2 ^ 30).

End Double.

(** ** Colours and the palette *)

Record SDL_Color : Type := mkColor { r : Z; g : Z; b : Z; a : Z }.

Definition wf_color (c : SDL_Color) : Prop :=
  is_u8 (r c) /\ is_u8 (g c) /\ is_u8 (b c) /\ is_u8 (a c).

(** The weighted squared distance of [findClosestPaletteEntry], evaluated as
    the source does: the channel differences and their squares in [int], each
    product with its weight and the two sums in [double]. *)
Definition distance (p_color color : SDL_Color) : Double.double :=
  Double.add
    (Double.add
       (Double.mul (Double.of_int ((r p_color - r color) * (r p_color - r color)))
                   Double.c_0_30)
       (Double.mul (Double.of_int ((g p_color - g color) * (g p_color - g color)))
                   Double.c_0_59))
    (Double.mul (Double.of_int ((b p_color - b color) * (b p_color - b color)))
                Double.c_0_11).

(** The same distance in exact arithmetic, in hundredths:
    30 * dR^2 + 59 * dG^2 + 11 * dB^2. *)
Definition exact_distance_100 (p_color color : SDL_Color) : Z :=
  30 * ((r p_color - r color) * (r p_color - r color))
  + 59 * ((g p_color - g color) * (g p_color - g color))
  + 11 * ((b p_color - b color) * (b p_color - b color)).

(** The loop of [findClosestPaletteEntry]: [ps] holds the palette entries
    from index [i] on, [closestIndex] and [lowestDistance] are the two
    locals. *)
Fixpoint closest_loop (color : SDL_Color) (ps : list SDL_Color) (i : nat)
    (closestIndex : Z) (lowestDistance : Double.double) : Z :=
  match ps with
  | [] => closestIndex
  | p_color :: ps' =>
      let d := distance p_color color in
      if Double.ltb d lowestDistance
      then closest_loop color ps' (S i) (u8 (Z.of_nat i)) d
      else closest_loop color ps' (S i) closestIndex lowestDistance
  end.

Definition findClosestPaletteEntry (palette : list SDL_Color)
    (color : SDL_Color) : Z :=
  closest_loop color palette 0 0 Double.INFINITY.

(** State of the search after the entries [seen] were visited: no visited
    entry is below [lowestDistance], and either nothing was selected yet
    or [closestIndex] is the first visited entry at that distance. *)
Definition closest_inv (color : SDL_Color) (seen : list SDL_Color)
    (closestIndex : Z) (lowestDistance : Double.double) : Prop :=
  Double.nonneg lowestDistance = true /\
  (forall j p_j, seen !! j = Some p_j ->
     Double.ltb (distance p_j color) lowestDistance = false) /\
  ((lowestDistance = Double.INFINITY /\ closestIndex = 0) \/
   (exists k p_k,
      closestIndex = Z.of_nat k /\ seen !! k = Some p_k /\
      lowestDistance = distance p_k color /\
      forall j p_j, (j < k)%nat -> seen !! j = Some p_j ->
        Double.ltb lowestDistance (distance p_j color) = true)).

(** ** Pixel memory and loops *)

(** [buf[i]]. A read past the end of the buffer is undefined in the source;
    here it yields 0, and no property below depends on such a read. *)
Definition rd (buf : list Z) (i : nat) : Z := default 0 (buf !! i).

(** [for (i = start; i < start + n; i++) s = body i s]. *)
Fixpoint for_loop {A : Type} (body : nat -> A -> A) (start n : nat) (s : A) : A :=
  match n with
  | O => s
  | S n' => for_loop body (S start) n' (body start s)
  end.

(** ** Surfaces and textures *)

Record SDL_Surface : Type := mkSurface {
  w : Z;
  h : Z;
  BitsPerPixel : Z;
  pixels : list Z
}.

(** [w * h], the number of pixels the loops visit. *)
Definition pixel_count (s : SDL_Surface) : Z := w s * h s.

(** [SDL_CreateRGBSurfaceWithFormat(0, w, h, 8, SDL_PIXELFORMAT_INDEX8)]:
    a zero-filled buffer of one byte per pixel. *)
Definition create_index8_surface (width height : Z) : SDL_Surface :=
  mkSurface width height 8 (replicate (Z.to_nat (width * height)) 0).

(** A texture is a snapshot of the surface it was created from. *)
Record SDL_Texture : Type := mkTexture {
  tex_w : Z;
  tex_h : Z;
  tex_pixels : list Z
}.

Definition SDL_CreateTextureFromSurface (s : SDL_Surface) : SDL_Texture :=
  mkTexture (w s) (h s) (pixels s).

(** An 8-bit surface whose buffer holds one byte per pixel. *)
Definition index8_surface (s : SDL_Surface) : Prop :=
  BitsPerPixel s = 8 /\ length (pixels s) = Z.to_nat (pixel_count s).

(** A 24-bit surface whose buffer holds three bytes per pixel. *)
Definition rgb888_surface (s : SDL_Surface) : Prop :=
  BitsPerPixel s = 24 /\
  length (pixels s) = (3 * Z.to_nat (pixel_count s))%nat /\
  Forall is_u8 (pixels s).

(** ** The quantiser: [convertSurfaceToIndex] *)

(** Outcome of the library calls that [renderNewSurface] and
    [convertSurfaceToIndex] check: [true] when the call succeeds. *)
Record SDL_Env : Type := mkEnv {
  create_surface_ok : bool;
  set_palette_ok : bool;
  lock_source_ok : bool;
  lock_dest_ok : bool;
  create_texture_ok : bool;
  set_logical_size_ok : bool;
  render_copy_ok : bool
}.

Definition env_ok : SDL_Env := mkEnv true true true true true true true.

(** What a call of [convertSurfaceToIndex] leaves behind: its return value,
    the message given to [SDL_SetError] if any, and the destination
    surface. *)
Record ConvertResult : Type := mkConvertResult {
  conv_ret : Z;
  conv_error : option string;
  conv_dest : option SDL_Surface
}.

Definition msg_source_format : string := "Source Surface is not RGB888.".
Definition msg_dest_format : string := "Dest Surface is not Index8.".
Definition msg_resolution : string :=
  "Source Surface and Dest Surface resolutions are not equal.".

(** ** Program state: the globals of [main.cpp] *)

Record State : Type := mkState {
  render_surface : option SDL_Surface;
  lit_surface : option SDL_Surface;
  render_texture : option SDL_Texture;
  exitRequested : bool;
  darkLevel : Z;
  underWater : bool;
  error_dialogs : nat
}.

Definition initial_state : State :=
  mkState None None None false 0 false 0.

Definition set_render_surface (v : option SDL_Surface) (s : State) : State :=
  mkState v (lit_surface s) (render_texture s) (exitRequested s)
          (darkLevel s) (underWater s) (error_dialogs s).

Definition set_lit_surface (v : option SDL_Surface) (s : State) : State :=
  mkState (render_surface s) v (render_texture s) (exitRequested s)
          (darkLevel s) (underWater s) (error_dialogs s).

Definition set_render_texture (v : option SDL_Texture) (s : State) : State :=
  mkState (render_surface s) (lit_surface s) v (exitRequested s)
          (darkLevel s) (underWater s) (error_dialogs s).

Definition set_exitRequested (v : bool) (s : State) : State :=
  mkState (render_surface s) (lit_surface s) (render_texture s) v
          (darkLevel s) (underWater s) (error_dialogs s).

Definition set_darkLevel (v : Z) (s : State) : State :=
  mkState (render_surface s) (lit_surface s) (render_texture s) (exitRequested s)
          v (underWater s) (error_dialogs s).

Definition set_underWater (v : bool) (s : State) : State :=
  mkState (render_surface s) (lit_surface s) (render_texture s) (exitRequested s)
          (darkLevel s) v (error_dialogs s).

Definition show_error_dialog (s : State) : State :=
  mkState (render_surface s) (lit_surface s) (render_texture s) (exitRequested s)
          (darkLevel s) (underWater s) (S (error_dialogs s)).

Section Program.

(** The table [palette] of [main.hpp]. *)
Variable palette : list SDL_Color.

(** Body of the copy loop: the three bytes of pixel [i] are read as blue,
    green, red. *)
Definition convert_pixel (source_pixels : list Z) (i : nat) : Z :=
  let offset := (i * 3)%nat in
  let color := mkColor (rd source_pixels (offset + 2))
                       (rd source_pixels (offset + 1))
                       (rd source_pixels offset) 0 in
  findClosestPaletteEntry palette color.

Definition convert_loop (source_pixels : list Z) (source_count : nat)
    (dest_pixels : list Z) : list Z :=
  for_loop (fun i dest_pixels => <[i := convert_pixel source_pixels i]> dest_pixels)
           0 source_count dest_pixels.

Definition convertSurfaceToIndex (env : SDL_Env)
    (source dest : option SDL_Surface) : ConvertResult :=
  match source, dest with
  | Some src, Some dst =>
      if negb (BitsPerPixel src =? 24) then
        mkConvertResult 1 (Some msg_source_format) dest
      else if negb (BitsPerPixel dst =? 8) then
        mkConvertResult 1 (Some msg_dest_format) dest
      else if negb (pixel_count src =? pixel_count dst) then
        mkConvertResult 1 (Some msg_resolution) dest
      else if negb (lock_source_ok env) then
        mkConvertResult 1 None dest
      else if negb (lock_dest_ok env) then
        mkConvertResult 1 None dest
      else
        let dest_pixels :=
          convert_loop (pixels src) (Z.to_nat (pixel_count src)) (pixels dst) in
        mkConvertResult 0 None
          (Some (mkSurface (w dst) (h dst) (BitsPerPixel dst) dest_pixels))
  | _, _ => mkConvertResult 1 None dest
  end.

(** ** [renderNewSurface] and [loadNewBMP] *)

(** Returns the [int] result together with the globals as the call leaves
    them. [render_surface] is assigned before the conversion runs. *)
Definition renderNewSurface (env : SDL_Env) (surface : SDL_Surface)
    (s : State) : Z * State :=
  let created :=
    if create_surface_ok env
    then Some (create_index8_surface (w surface) (h surface))
    else None in
  let s := set_render_surface created s in
  match created with
  | None => (1, s)
  | Some _ =>
      if negb (set_palette_ok env) then (1, s) else
      let res := convertSurfaceToIndex env (Some surface) (render_surface s) in
      let s := set_render_surface (conv_dest res) s in
      if negb (conv_ret res =? 0) then (1, s) else
      let s := set_render_texture
                 (if create_texture_ok env
                  then SDL_CreateTextureFromSurface <$> render_surface s
                  else None) s in
      match render_texture s with
      | None => (1, s)
      | Some _ =>
          if negb (set_logical_size_ok env) then (1, s) else
          if negb (render_copy_ok env) then (1, s) else
          (0, s)
      end
  end.

(** [temp] is the result of [SDL_LoadBMP]: [None] when decoding fails. *)
Definition loadNewBMP (env : SDL_Env) (temp : option SDL_Surface)
    (s : State) : Z * State :=
  match temp with
  | None => (1, s)
  | Some surface => renderNewSurface env surface s
  end.

End Program.

(** The base surface a successful load produces. *)
Definition quantized_surface (palette : list SDL_Color) (surface : SDL_Surface)
    : SDL_Surface :=
  mkSurface (w surface) (h surface) 8
    (convert_loop palette (pixels surface) (Z.to_nat (pixel_count surface))
       (replicate (Z.to_nat (w surface * h surface)) 0)).

(** ** The brightness mapper: [updateDarkLevel] *)

(** Body of the lighting loop for one pixel. *)
Definition darken_pixel (darkLevel color : Z) : Z :=
  if (darkLevel =? 8) || (color >? UINT8_MAX - 32 * darkLevel)
  then 255
  else u8 (color + 32 * darkLevel).

Definition darken_loop (darkLevel : Z) (source_pixels : list Z)
    (surface_size : nat) (lit_pixels : list Z) : list Z :=
  for_loop (fun i lit_pixels =>
              let color := rd source_pixels i in
              <[i := darken_pixel darkLevel color]> lit_pixels)
           0 surface_size lit_pixels.

(** A fresh [lit_surface] is allocated with the size of [render_surface],
    filled from it, and shown. *)
Definition updateDarkLevel (s : State) : State :=
  match render_surface s with
  | None => s
  | Some rs =>
      let surface_size := Z.to_nat (pixel_count rs) in
      let lit := create_index8_surface (w rs) (h rs) in
      let lit_pixels :=
        darken_loop (darkLevel s) (pixels rs) surface_size (pixels lit) in
      let lit := mkSurface (w lit) (h lit) (BitsPerPixel lit) lit_pixels in
      set_render_texture (Some (SDL_CreateTextureFromSurface lit))
        (set_lit_surface (Some lit) s)
  end.

(** ** The tint toggler: [updateUnderwater] *)

Definition tint_pixel (underWater : bool) (color : Z) : Z :=
  if underWater then u8 (Z.lor color 16) else color.

(** The loop rewrites [lit_pixels] in place. *)
Definition tint_loop (underWater : bool) (surface_size : nat)
    (lit_pixels : list Z) : list Z :=
  for_loop (fun i lit_pixels =>
              let color := rd lit_pixels i in
              <[i := tint_pixel underWater color]> lit_pixels)
           0 surface_size lit_pixels.

(** [None] stands for the dereference of a null [lit_surface]. *)
Definition updateUnderwater (s : State) : option State :=
  match render_surface s with
  | None => Some s
  | Some _ =>
      match lit_surface s with
      | None => None
      | Some lit =>
          let surface_size := Z.to_nat (pixel_count lit) in
          let lit_pixels := tint_loop (underWater s) surface_size (pixels lit) in
          let lit := mkSurface (w lit) (h lit) (BitsPerPixel lit) lit_pixels in
          Some (set_render_texture (Some (SDL_CreateTextureFromSurface lit))
                  (set_lit_surface (Some lit) s))
      end
  end.

(** ** Events: [handleEvents] and the main loop *)

Inductive SDL_Scancode : Type :=
| SDL_SCANCODE_UP
| SDL_SCANCODE_DOWN
| SDL_SCANCODE_SPACE
| SDL_SCANCODE_OTHER.

(** A drop event carries what [SDL_LoadBMP] returns for the dropped file and
  the outcome of the library calls made while it is handled. *)
Inductive SDL_Event : Type :=
| SDL_QUIT
| SDL_DROPFILE (temp : option SDL_Surface) (env : SDL_Env)
| SDL_KEYDOWN (scancode : SDL_Scancode)
| SDL_OTHER_EVENT.

Section Events.

Variable palette : list SDL_Color.

(** One iteration of the polling loop of [handleEvents]. *)
Definition handleEvent (event : SDL_Event) (s : State) : option State :=
  match event with
  | SDL_QUIT => Some (set_exitRequested true s)
  | SDL_DROPFILE temp env =>
      let '(err, s) := loadNewBMP palette env temp s in
      if negb (err =? 0) then Some (show_error_dialog s) else Some s
  | SDL_KEYDOWN SDL_SCANCODE_UP =>
      let s := if darkLevel s >? 0 then set_darkLevel (darkLevel s - 1) s else s in
      updateUnderwater (updateDarkLevel s)
  | SDL_KEYDOWN SDL_SCANCODE_DOWN =>
      let s := if darkLevel s <? 8 then set_darkLevel (darkLevel s + 1) s else s in
      updateUnderwater (updateDarkLevel s)
  | SDL_KEYDOWN SDL_SCANCODE_SPACE =>
      let s := set_underWater (negb (underWater s)) s in
      updateUnderwater (updateDarkLevel s)
  | SDL_KEYDOWN SDL_SCANCODE_OTHER => Some s
  | SDL_OTHER_EVENT => Some s
  end.

(** [handleEvents] on the queue of pending events. *)
Fixpoint handleEvents (events : list SDL_Event) (s : State) : option State :=
  match events with
  | [] => Some s
  | event :: events' =>
      match handleEvent event s with
      | Some s' => handleEvents events' s'
      | None => None
      end
  end.

(** The main loop of [SDL_main]: one queue of events per frame, until
    [exitRequested]. *)
Fixpoint main_loop (frames : list (list SDL_Event)) (s : State) : option State :=
  if exitRequested s then Some s else
  match frames with
  | [] => Some s
  | events :: frames' =>
      match handleEvents events s with
      | Some s' => main_loop frames' s'
      | None => None
      end
  end.

End Events.

(** ** Definitions used to state the properties *)

(** The brightness mapper in the words of the specification. *)
Definition applyDarkness_spec (level v : Z) : Z :=
  if decide (level = 8 \/ v > 255 - 32 * level) then 255 else v + 32 * level.

(** The toggle as the specification words it: the flag is flipped and only
    the tint toggler runs, on the lit buffer as it is. *)
Definition toggle_tint_only (s : State) : option State :=
  updateUnderwater (set_underWater (negb (underWater s)) s).

Definition white_1x1 : SDL_Surface := mkSurface 1 1 24 [255; 255; 255].

(** A palette on which the program is run below: a grey ramp from white at
    index 0 to black at index 255. *)
Definition sample_palette : list SDL_Color :=
  (fun i => mkColor (255 - i) (255 - i) (255 - i) 255) <$> seqZ 0 256.

(** ** Start-up and exit: [initSDL2] and [SDL_main] *)





(** ** Predicates used to state the further properties *)

(** Two colours with the same red, green and blue channels. *)
Definition same_rgb (p q : SDL_Color) : Prop :=
  r p = r q /\ g p = g q /\ b p = b q.

(** An index surface that holds one byte per pixel. *)
Definition surface_ok (s : SDL_Surface) : Prop :=
  index8_surface s /\ Forall is_u8 (pixels s).



(** The base surface darkened at a level, then tinted under a flag. *)
Definition lit_of (level : Z) (flag : bool) (base : SDL_Surface) : SDL_Surface :=
  mkSurface (w base) (h base) 8
    (tint_pixel flag <$> (darken_pixel level <$> pixels base)).

(** The lit buffer and the displayed texture are the base buffer darkened
    at the current level and tinted under the current flag. *)
Definition shows_pipeline (s : State) : Prop :=
  exists base,
    render_surface s = Some base /\
    length (pixels base) = Z.to_nat (pixel_count base) /\
    lit_surface s = Some (lit_of (darkLevel s) (underWater s) base) /\
    render_texture s
    = Some (SDL_CreateTextureFromSurface
              (lit_of (darkLevel s) (underWater s) base)).

(** The file decodes to a 24-bit surface and every library call of the
    load succeeds. *)
Definition load_ok (temp : option SDL_Surface) (env : SDL_Env) : bool :=
  match temp with
  | Some surface =>
      (BitsPerPixel surface =? 24) && create_surface_ok env
      && set_palette_ok env && lock_source_ok env && lock_dest_ok env
      && create_texture_ok env && set_logical_size_ok env && render_copy_ok env
  | None => false
  end.

(** A drop event whose load fails. *)
Definition failed_drop (event : SDL_Event) : bool :=
  match event with
  | SDL_DROPFILE temp env => negb (load_ok temp env)
  | _ => false
  end.

(** * Properties *)

(** ** Facts on binary64 numbers *)

Module DoubleFacts.
Import Double.

(** The literals are the correctly rounded quotients 30/100, 59/100 and
    11/100. *)
Example lit_0_30 : SFdiv prec emax (of_int 30) (of_int 100) = c_0_30.
Proof. vm_compute. reflexivity. Qed.

Example lit_0_59 : SFdiv prec emax (of_int 59) (of_int 100) = c_0_59.
Proof. vm_compute. reflexivity. Qed.

Example lit_0_11 : SFdiv prec emax (of_int 11) (of_int 100) = c_0_11.
Proof. vm_compute. reflexivity. Qed.

(** *** Rounding a non-negative mantissa never yields NaN *)

Lemma shr_1_nonneg mrs : 0 <= shr_m mrs -> 0 <= shr_m (shr_1 mrs).
Proof.
  destruct mrs as [m r0 s0]; simpl.
  destruct m as [|p|p]; [simpl; lia | | lia].
  intros _. destruct p; simpl; lia.
Qed.

Lemma iter_pos_shr_1_nonneg p : forall mrs,
  0 <= shr_m mrs -> 0 <= shr_m (SpecFloat.iter_pos shr_1 p mrs).
Proof.
  induction p as [p IH|p IH|]; intros mrs H; simpl.
  - apply IH, IH, shr_1_nonneg, H.
  - apply IH, IH, H.
  - apply shr_1_nonneg, H.
Qed.

Lemma shr_m_record_of_loc m l : shr_m (shr_record_of_loc m l) = m.
Proof. destruct l as [|[]]; reflexivity. Qed.

Lemma shr_fexp_nonneg m e l :
  0 <= m -> 0 <= shr_m (fst (shr_fexp prec emax m e l)).
Proof.
  intros H. unfold shr_fexp, shr.
  destruct (fexp prec emax (Zdigits2 m + e) - e) as [|p|p]; simpl;
    try (rewrite shr_m_record_of_loc; exact H).
  apply iter_pos_shr_1_nonneg. rewrite shr_m_record_of_loc. exact H.
Qed.

Lemma round_nearest_even_nonneg m l : 0 <= m -> 0 <= round_nearest_even m l.
Proof.
  intros H. unfold round_nearest_even.
  destruct l as [|[]]; try destruct (Z.even m); lia.
Qed.

Lemma binary_round_aux_nonneg m e l :
  0 <= m -> nonneg (binary_round_aux prec emax false m e l) = true.
Proof.
  intros H. unfold binary_round_aux.
  pose proof (shr_fexp_nonneg m e l H) as H1.
  destruct (shr_fexp prec emax m e l) as [mrs' e']; simpl in H1.
  pose proof (shr_fexp_nonneg _ e' loc_Exact
                (round_nearest_even_nonneg _ (loc_of_shr_record mrs') H1)) as H2.
  destruct (shr_fexp prec emax _ e' loc_Exact) as [mrs'' e'']; simpl in H2.
  destruct (shr_m mrs'') as [|p|p]; [reflexivity | | lia].
  destruct (e'' <=? emax - prec); reflexivity.
Qed.

Lemma binary_round_nonneg m e : nonneg (binary_round prec emax false m e) = true.
Proof.
  unfold binary_round.
  destruct (shl_align m e _) as [mz ez].
  apply binary_round_aux_nonneg. lia.
Qed.

Lemma of_int_nonneg z : 0 <= z -> nonneg (of_int z) = true.
Proof.
  intros H. unfold of_int, binary_normalize.
  destruct z as [|p|p]; [reflexivity | apply binary_round_nonneg | lia].
Qed.

Lemma mul_nonneg x m e :
  nonneg x = true -> nonneg (mul x (S754_finite false m e)) = true.
Proof.
  destruct x as [s|s| |s mx ex]; simpl; try discriminate.
  - intros _. reflexivity.
  - destruct s; [discriminate | reflexivity].
  - destruct s; [discriminate | intros _].
    apply binary_round_aux_nonneg. lia.
Qed.

Lemma add_nonneg x y :
  nonneg x = true -> nonneg y = true -> nonneg (add x y) = true.
Proof.
  destruct x as [sx|sx| |sx mx ex], y as [sy|sy| |sy my ey]; simpl;
    try discriminate; try (destruct sx; [discriminate|]);
    try (destruct sy; [discriminate|]); try reflexivity;
    try (destruct sx, sy; reflexivity); intros _ _.
  unfold add, SFadd, cond_Zopp.
  match goal with
  | |- nonneg (binary_normalize _ _ ?z _ _) = true =>
      assert (Hz : 0 < z) by lia; destruct z as [|p|p]; try lia
  end.
  apply binary_round_nonneg.
Qed.

(** *** The comparison [<] is a strict total order away from NaN *)

Lemma ltb_key x y :
  nonneg x = true -> nonneg y = true ->
  (ltb x y = true <-> lexlt (key x) (key y)).
Proof.
  destruct x as [sx|sx| |sx mx ex], y as [sy|sy| |sy my ey]; simpl;
    try discriminate;
    try (destruct sx; [discriminate|]); try (destruct sy; [discriminate|]);
    intros _ _; unfold ltb, SFltb; simpl;
    try (split; [discriminate | lia]);
    try (split; [lia | reflexivity]);
    try (destruct sx; split; (discriminate || lia)).
  destruct (Z.compare_spec ex ey) as [He|He|He].
  - change (Pos.compare_cont Eq mx my) with (mx ?= my)%positive.
    destruct (Pos.compare_spec mx my); split; (discriminate || lia || reflexivity).
  - split; [lia | reflexivity].
  - split; [discriminate | lia].
Qed.

Lemma ltb_irrefl x : ltb x x = false.
Proof.
  destruct x as [s|s| |s m e]; try reflexivity; try (destruct s; reflexivity).
  unfold ltb, SFltb; simpl. rewrite Z.compare_refl.
  change (Pos.compare_cont Eq m m) with (m ?= m)%positive.
  rewrite Pos.compare_refl. destruct s; reflexivity.
Qed.

Lemma ltb_trans x y z :
  nonneg x = true -> nonneg y = true -> nonneg z = true ->
  ltb x y = true -> ltb y z = true -> ltb x z = true.
Proof.
  intros Hx Hy Hz.
  rewrite (ltb_key x y Hx Hy), (ltb_key y z Hy Hz), (ltb_key x z Hx Hz).
  destruct (key x) as [[? ?] ?], (key y) as [[? ?] ?], (key z) as [[? ?] ?].
  unfold lexlt. lia.
Qed.

(** [x < y <= z] gives [x < z]. *)
Lemma ltb_le_trans x y z :
  nonneg x = true -> nonneg y = true -> nonneg z = true ->
  ltb x y = true -> ltb z y = false -> ltb x z = true.
Proof.
  intros Hx Hy Hz Hxy Hzy.
  assert (Hn : ~ lexlt (key z) (key y)).
  { rewrite <- (ltb_key z y Hz Hy). rewrite Hzy. discriminate. }
  revert Hxy Hn.
  rewrite (ltb_key x y Hx Hy), (ltb_key x z Hx Hz).
  destruct (key x) as [[? ?] ?], (key y) as [[? ?] ?], (key z) as [[? ?] ?].
  unfold lexlt. lia.
Qed.

(** Only [+oo] is not below [INFINITY]. *)
Lemma not_below_infinity x :
  nonneg x = true -> ltb x INFINITY = false -> x = INFINITY.
Proof.
  destruct x as [s|s| |s m e]; simpl; intros H1 H2;
    try discriminate; destruct s; try discriminate; reflexivity.
Qed.

(** *** Rounding error of the sums *)

Lemma digits2_pos_size p : digits2_pos p = Pos.size p.
Proof. induction p as [p IH|p IH|]; simpl; congruence. Qed.

Lemma Zdigits2_log2 p : Zdigits2 (Zpos p) = Z.log2 (Zpos p) + 1.
Proof.
  simpl. rewrite digits2_pos_size. destruct p as [p|p|]; simpl; try lia.
Qed.

Lemma shr_1_m mrs : shr_m (shr_1 mrs) = shr_m mrs / 2 \/ shr_m mrs < 0.
Proof.
  destruct mrs as [m r0 s0]; simpl.
  destruct m as [|p|p]; [left; reflexivity | left | right; lia].
  destruct p as [p|p|]; simpl.
  - rewrite Pos2Z.inj_xI. apply Z.div_unique with 1; lia.
  - rewrite Pos2Z.inj_xO. apply Z.div_unique with 0; lia.
  - reflexivity.
Qed.

Lemma iter_pos_shr_1_m p : forall mrs,
  0 <= shr_m mrs ->
  shr_m (SpecFloat.iter_pos shr_1 p mrs) = shr_m mrs / 2 ^ Zpos p.
Proof.
  assert (step : forall mrs, 0 <= shr_m mrs ->
            shr_m (shr_1 mrs) = shr_m mrs / 2 /\ 0 <= shr_m (shr_1 mrs)).
  { intros mrs H. destruct (shr_1_m mrs) as [E|E]; [|lia].
    split; [exact E|]. rewrite E. apply Z.div_pos; lia. }
  induction p as [p IH|p IH|]; intros mrs H; cbn [SpecFloat.iter_pos].
  - destruct (step mrs H) as [E1 H1].
    assert (H2 : 0 <= shr_m (SpecFloat.iter_pos shr_1 p (shr_1 mrs))).
    { rewrite IH by exact H1. apply Z.div_pos; lia. }
    rewrite IH by exact H2. rewrite IH by exact H1. rewrite E1.
    rewrite !Z.div_div by lia. f_equal.
    change 2 with (2 ^ 1) at 1. rewrite <- !Z.pow_add_r by lia. f_equal. lia.
  - assert (H2 : 0 <= shr_m (SpecFloat.iter_pos shr_1 p mrs)).
    { rewrite IH by exact H. apply Z.div_pos; lia. }
    rewrite IH by exact H2. rewrite IH by exact H.
    rewrite !Z.div_div by lia. f_equal.
    rewrite <- !Z.pow_add_r by lia. f_equal. lia.
  - destruct (step mrs H) as [E1 _]. rewrite E1. reflexivity.
Qed.

(** [shr_fexp] divides the mantissa by a power of two and moves the
    exponent accordingly. *)
Lemma shr_fexp_spec m e l :
  0 <= m ->
  let n := Z.max 0 (fexp prec emax (Zdigits2 m + e) - e) in
  shr_m (fst (shr_fexp prec emax m e l)) = m / 2 ^ n /\
  snd (shr_fexp prec emax m e l) = e + n.
Proof.
  intros Hm. unfold shr_fexp, shr.
  destruct (fexp prec emax (Zdigits2 m + e) - e) as [|p|p]; simpl.
  - rewrite shr_m_record_of_loc, Z.div_1_r. split; [reflexivity | lia].
  - rewrite iter_pos_shr_1_m by (rewrite shr_m_record_of_loc; exact Hm).
    rewrite shr_m_record_of_loc. split; reflexivity.
  - rewrite shr_m_record_of_loc, Z.div_1_r. split; [reflexivity | lia].
Qed.

Lemma round_nearest_even_bounds m l :
  m <= round_nearest_even m l <= m + 1.
Proof.
  unfold round_nearest_even. destruct l as [|[]]; try destruct (Z.even m); lia.
Qed.

(** Rounding a mantissa of at least 53 bits: the result is a normal number
    within one unit in the last place of the exact value. *)
Lemma binary_round_aux_normal m e l :
  2 ^ 52 <= m -> -1074 <= e -> e + Z.log2 m <= 1022 ->
  exists m' e',
    binary_round_aux prec emax false m e l = S754_finite false m' e' /\
    2 ^ 52 <= Zpos m' < 2 ^ 53 /\
    e <= e' <= e + Z.log2 m - 51 /\
    (Zpos m' - 1) * 2 ^ (e' - e) <= m <= (Zpos m' + 1) * 2 ^ (e' - e).
Proof.
  intros Hm He Hover.
  assert (Hpos : 0 < m) by lia.
  assert (Hlog : 52 <= Z.log2 m) by (apply Z.log2_le_pow2; lia).
  destruct (Z.log2_spec m Hpos) as [Hlo Hhi].
  unfold binary_round_aux.
  destruct (shr_fexp_spec m e l) as [Hm1 He1]; [lia|].
  destruct (shr_fexp prec emax m e l) as [mrs' e1]. simpl in Hm1, He1.
  assert (Hd : Zdigits2 m = Z.log2 m + 1).
  { destruct m as [|p|p]; try lia. apply Zdigits2_log2. }
  rewrite Hd in Hm1, He1.
  replace (Z.max 0 (fexp prec emax (Z.log2 m + 1 + e) - e)) with (Z.log2 m - 52)
    in Hm1, He1 by (unfold fexp, emin, prec, emax; lia).
  set (n0 := Z.log2 m - 52) in *.
  assert (Hn0 : 0 <= n0) by (unfold n0; lia).
  assert (HP : 0 < 2 ^ n0) by (apply Z.pow_pos_nonneg; lia).
  pose proof (Z.div_mod m (2 ^ n0) ltac:(lia)) as Hdm.
  pose proof (Z.mod_pos_bound m (2 ^ n0) HP) as Hmod.
  assert (Hsplit : 2 ^ Z.log2 m = 2 ^ 52 * 2 ^ n0).
  { rewrite <- Z.pow_add_r by lia. f_equal. unfold n0. lia. }
  assert (Hsplit' : 2 ^ Z.succ (Z.log2 m) = 2 ^ 53 * 2 ^ n0).
  { rewrite <- Z.pow_add_r by lia. f_equal. unfold n0. lia. }
  assert (Hm1r : 2 ^ 52 <= shr_m mrs' < 2 ^ 53).
  { rewrite Hm1. split.
    - apply Z.div_le_lower_bound; lia.
    - apply Z.div_lt_upper_bound; lia. }
  pose proof (round_nearest_even_bounds (shr_m mrs') (loc_of_shr_record mrs')) as Hr.
  set (m2 := round_nearest_even (shr_m mrs') (loc_of_shr_record mrs')) in *.
  destruct (shr_fexp_spec m2 e1 loc_Exact) as [Hm3 He3]; [lia|].
  destruct (shr_fexp prec emax m2 e1 loc_Exact) as [mrs'' e3]. simpl in Hm3, He3.
  assert (Hd2 : Zdigits2 m2 = Z.log2 m2 + 1).
  { destruct m2 as [|p|p]; try lia. apply Zdigits2_log2. }
  rewrite Hd2 in Hm3, He3.
  assert (Hl2 : Z.log2 m2 = 52 \/ (Z.log2 m2 = 53 /\ m2 = 2 ^ 53)).
  { destruct (Z.eq_dec m2 (2 ^ 53)) as [E|E].
    - right. split; [rewrite E; reflexivity | exact E].
    - left. apply Z.log2_unique; [lia|]. change (Z.succ 52) with 53. lia. }
  destruct Hl2 as [Hl2|[Hl2 E2]]; rewrite Hl2 in Hm3, He3.
  - replace (Z.max 0 (fexp prec emax (52 + 1 + e1) - e1)) with 0 in Hm3, He3
      by (unfold fexp, emin, prec, emax; lia).
    rewrite Z.div_1_r in Hm3. rewrite Hm3.
    assert (Hlt : m2 < 2 ^ 53).
    { apply Z.log2_lt_pow2; lia. }
    destruct m2 as [|p|p] eqn:Em2; try lia.
    replace (e3 <=? emax - prec) with true
      by (symmetry; apply Z.leb_le; unfold emax, prec; lia).
    exists p, e3. split; [reflexivity|]. split; [lia|]. split; [lia|].
    replace (e3 - e) with n0 by lia.
    rewrite Hm1 in Hr. nia.
  - replace (Z.max 0 (fexp prec emax (53 + 1 + e1) - e1)) with 1 in Hm3, He3
      by (unfold fexp, emin, prec, emax; lia).
    rewrite E2 in Hm3. change (2 ^ 53 / 2 ^ 1) with (Zpos (2 ^ 52)) in Hm3.
    rewrite Hm3.
    replace (e3 <=? emax - prec) with true
      by (symmetry; apply Z.leb_le; unfold emax, prec; lia).
    exists (2 ^ 52)%positive, e3. split; [reflexivity|].
    split; [split; [reflexivity | reflexivity]|]. split; [lia|].
    replace (e3 - e) with (n0 + 1) by lia.
    rewrite Z.pow_add_r by lia. change (2 ^ 1) with 2.
    rewrite Hm1 in Hr. rewrite E2 in Hr.
    change (Z.pos (2 ^ 52)) with (2 ^ 52). nia.
Qed.

Lemma shl_align_fst mx ex ez :
  ez <= ex -> Zpos (fst (shl_align mx ex ez)) = Zpos mx * 2 ^ (ex - ez).
Proof.
  intros H. unfold shl_align.
  destruct (ez - ex) as [|d|d] eqn:E; cbn [fst].
  - replace (ex - ez) with 0 by lia. rewrite Z.pow_0_r. lia.
  - lia.
  - replace (ex - ez) with (Zpos d) by lia.
    rewrite (Pos.iter_swap_gen _ _ Zpos xO (Z.mul 2)) by reflexivity.
    change (Pos.iter (Z.mul 2) (Zpos mx) d) with (Z.shiftl (Zpos mx) (Zpos d)).
    apply Z.shiftl_mul_pow2. lia.
Qed.

Lemma normal_finite hi m e :
  normal hi (S754_finite false m e) = true ->
  2 ^ 52 <= Zpos m < 2 ^ 53 /\ -56 <= e <= hi.
Proof.
  unfold normal. rewrite !andb_true_iff, !Z.leb_le, Z.ltb_lt. lia.
Qed.

Lemma add_normal hi x y :
  normal hi x = true -> normal hi y = true -> hi <= 960 ->
  normal (hi + 2) (add x y) = true /\
  (2 ^ 52 - 1) * Z.abs (val (add x y) - (val x + val y)) <= val x + val y.
Proof.
  intros Hx Hy Hhi.
  assert (Hmono : forall z, normal hi z = true -> normal (hi + 2) z = true).
  { intros [[]| | |[] m e]; simpl; try discriminate; try reflexivity.
    rewrite !andb_true_iff, !Z.leb_le, !Z.ltb_lt. lia. }
  assert (Hval : forall z, normal hi z = true -> 0 <= val z).
  { intros z Hz. destruct z as [[]| | |[] m e]; try discriminate Hz;
      cbn [val]; lia. }
  destruct x as [[]| | |[] mx ex]; try discriminate Hx;
    destruct y as [[]| | |[] my ey]; try discriminate Hy.
  - split; [reflexivity | simpl; lia].
  - split; [apply Hmono, Hy|]. specialize (Hval _ Hy).
    change (add (S754_zero false) (S754_finite false my ey))
      with (S754_finite false my ey).
    change (val (S754_zero false)) with 0.
    rewrite Z.add_0_l, Z.sub_diag. simpl Z.abs. lia.
  - split; [apply Hmono, Hx|]. specialize (Hval _ Hx).
    change (add (S754_finite false mx ex) (S754_zero false))
      with (S754_finite false mx ex).
    change (val (S754_zero false)) with 0.
    rewrite Z.add_0_r, Z.sub_diag. simpl Z.abs. lia.
  - apply normal_finite in Hx as [Hmx Hex]. apply normal_finite in Hy as [Hmy Hey].
    unfold add, SFadd, cond_Zopp.
    set (ez := Z.min ex ey).
    rewrite (shl_align_fst mx ex ez), (shl_align_fst my ey ez) by (unfold ez; lia).
    set (s := Z.pos mx * 2 ^ (ex - ez) + Z.pos my * 2 ^ (ey - ez)).
    assert (Hpx : 1 <= 2 ^ (ex - ez))
      by (apply Z.lt_pred_le, Z.pow_pos_nonneg; unfold ez; lia).
    assert (Hpy : 1 <= 2 ^ (ey - ez))
      by (apply Z.lt_pred_le, Z.pow_pos_nonneg; unfold ez; lia).
    assert (Hs52 : 2 ^ 52 <= s) by (unfold s; nia).
    set (M := Z.max ex ey).
    assert (Hpx' : 2 ^ (ex - ez) <= 2 ^ (M - ez))
      by (apply Z.pow_le_mono_r; unfold M, ez; lia).
    assert (Hpy' : 2 ^ (ey - ez) <= 2 ^ (M - ez))
      by (apply Z.pow_le_mono_r; unfold M, ez; lia).
    assert (Hslt : s < 2 ^ (54 + (M - ez))).
    { rewrite Z.pow_add_r by (unfold M, ez; lia). unfold s. nia. }
    assert (Hlog : Z.log2 s < 54 + (M - ez)) by (apply Z.log2_lt_pow2; lia).
    destruct s as [|ps|ps] eqn:Es; try lia.
    unfold binary_normalize, binary_round.
    assert (Hal : shl_align ps ez (fexp prec emax (Z.pos (digits2_pos ps) + ez))
                  = (ps, ez)).
    { unfold shl_align.
      change (Z.pos (digits2_pos ps)) with (Zdigits2 (Zpos ps)).
      rewrite Zdigits2_log2.
      assert (52 <= Z.log2 (Zpos ps)) by (apply Z.log2_le_pow2; lia).
      destruct (fexp prec emax (Z.log2 (Z.pos ps) + 1 + ez) - ez) eqn:E;
        try reflexivity.
      unfold fexp, emin, prec, emax in E. lia. }
    rewrite Hal.
    destruct (binary_round_aux_normal (Zpos ps) ez loc_Exact)
      as (m' & e' & Hres & Hm' & He' & Herr);
      [lia | unfold ez; lia | unfold M, ez in *; lia |].
    rewrite Hres. split.
    + unfold normal. rewrite !andb_true_iff, !Z.leb_le, Z.ltb_lt.
      unfold M, ez in *. lia.
    + unfold val.
      assert (HX : 2 ^ (e' + 56) = 2 ^ (e' - ez) * 2 ^ (ez + 56)).
      { rewrite <- Z.pow_add_r by (unfold ez in *; lia). f_equal. lia. }
      assert (Hxs : 2 ^ (ex + 56) = 2 ^ (ex - ez) * 2 ^ (ez + 56)).
      { rewrite <- Z.pow_add_r by (unfold ez in *; lia). f_equal. lia. }
      assert (Hys : 2 ^ (ey + 56) = 2 ^ (ey - ez) * 2 ^ (ez + 56)).
      { rewrite <- Z.pow_add_r by (unfold ez in *; lia). f_equal. lia. }
      assert (HZ : 0 < 2 ^ (ez + 56)) by (apply Z.pow_pos_nonneg; unfold ez; lia).
      assert (HE : 0 < 2 ^ (e' - ez)) by (apply Z.pow_pos_nonneg; lia).
      rewrite HX, Hxs, Hys.
      set (Z0 := 2 ^ (ez + 56)) in *. set (E := 2 ^ (e' - ez)) in *.
      replace (Z.pos mx * (2 ^ (ex - ez) * Z0) + Z.pos my * (2 ^ (ey - ez) * Z0))
        with (Zpos ps * Z0) by (rewrite <- Es; unfold s; ring).
      replace (Z.pos m' * (E * Z0) - Z.pos ps * Z0)
        with ((Zpos m' * E - Zpos ps) * Z0) by ring.
      rewrite Z.abs_mul, (Z.abs_eq Z0) by lia.
      assert (Habs : Z.abs (Z.pos m' * E - Z.pos ps) <= E) by lia.
      assert (Hrel : (2 ^ 52 - 1) * E <= Zpos ps) by nia.
      nia.
Qed.

Lemma ltb_of_val hi x y :
  normal hi x = true -> normal hi y = true -> val x < val y -> ltb x y = true.
Proof.
  intros Hx Hy.
  destruct x as [[]| | |[] mx ex]; try discriminate Hx;
    destruct y as [[]| | |[] my ey]; try discriminate Hy; cbn [val];
    try reflexivity; try lia.
  apply normal_finite in Hx as [Hmx Hex]. apply normal_finite in Hy as [Hmy Hey].
  intros Hlt. unfold ltb, SFltb, SFcompare.
  destruct (Z.compare_spec ex ey) as [E|E|E].
  - subst ey.
    change (Pos.compare_cont Eq mx my) with (mx ?= my)%positive.
    assert (0 < 2 ^ (ex + 56)) by (apply Z.pow_pos_nonneg; lia).
    destruct (Pos.compare_spec mx my) as [E|E|E]; [subst; lia | reflexivity | nia].
  - reflexivity.
  - exfalso.
    assert (HY : 0 < 2 ^ (ey + 56)) by (apply Z.pow_pos_nonneg; lia).
    assert (HX : 2 ^ (ex + 56) = 2 ^ (ex - ey) * 2 ^ (ey + 56)).
    { rewrite <- Z.pow_add_r by lia. f_equal. lia. }
    assert (H2 : 2 ^ 1 <= 2 ^ (ex - ey)) by (apply Z.pow_le_mono_r; lia).
    change (2 ^ 1) with 2 in H2.
    rewrite HX in Hlt. nia.
Qed.

End DoubleFacts.

Lemma distance_nonneg p_color color :
  Double.nonneg (distance p_color color) = true.
Proof.
  unfold distance.
  repeat apply DoubleFacts.add_nonneg;
    apply DoubleFacts.mul_nonneg, DoubleFacts.of_int_nonneg, Z.square_nonneg.
Qed.

(** ** The distance against exact arithmetic *)

Lemma seqZ_forallb (f : Z -> bool) lo n :
  forallb f (seqZ lo n) = true -> forall v, lo <= v < lo + n -> f v = true.
Proof.
  intros H v Hv. rewrite forallb_forall in H. apply H.
  apply list_elem_of_In, elem_of_seqZ. exact Hv.
Qed.

(** The three products, checked on every difference of two bytes. *)
Lemma products_ok :
  forallb (fun d => Double.product_ok Double.c_0_30 30 d
                    && Double.product_ok Double.c_0_59 59 d
                    && Double.product_ok Double.c_0_11 11 d)
          (seqZ (-255) 511) = true.
Proof. vm_compute. reflexivity. Qed.

Lemma product_bounds weight hundredths d :
  Double.product_ok weight hundredths d = true ->
  let x := Double.mul (Double.of_int (d * d)) weight in
  Double.normal (-30) x = true /\
  Z.abs (100 * Double.val x - hundredths * (d * d) * 2 ^ 56) <= 2 ^ 30.
Proof.
  unfold Double.product_ok. cbv zeta.
  rewrite andb_true_iff, Z.leb_le. tauto.
Qed.

Lemma normal_weaken lo hi x :
  lo <= hi -> Double.normal lo x = true -> Double.normal hi x = true.
Proof.
  intros Hle. destruct x as [[]| | |[] m e]; simpl; try discriminate; try reflexivity.
  rewrite !andb_true_iff, !Z.leb_le, !Z.ltb_lt. lia.
Qed.

(** The computed distance is within 2^-16 hundredths of the exact one. *)
Lemma distance_value p_color color :
  wf_color p_color -> wf_color color ->
  Double.normal (-26) (distance p_color color) = true /\
  Z.abs (100 * Double.val (distance p_color color)
         - exact_distance_100 p_color color * 2 ^ 56) <= 2 ^ 40.
Proof.
  intros (Hpr & Hpg & Hpb & _) (Hcr & Hcg & Hcb & _).
  unfold is_u8 in *.
  assert (Hall : forall d, -255 <= d <= 255 ->
            Double.product_ok Double.c_0_30 30 d = true /\
            Double.product_ok Double.c_0_59 59 d = true /\
            Double.product_ok Double.c_0_11 11 d = true).
  { intros d Hd.
    pose proof (seqZ_forallb _ _ _ products_ok d ltac:(lia)) as H.
    cbv beta in H. rewrite !andb_true_iff in H. tauto. }
  assert (Hsq : forall d, -255 <= d <= 255 -> 0 <= d * d <= 65025) by (intros; nia).
  unfold distance, exact_distance_100.
  set (dr := r p_color - r color). set (dg := g p_color - g color).
  set (db := b p_color - b color).
  destruct (Hall dr ltac:(unfold dr; lia)) as (Hr & _ & _).
  destruct (Hall dg ltac:(unfold dg; lia)) as (_ & Hg & _).
  destruct (Hall db ltac:(unfold db; lia)) as (_ & _ & Hb).
  apply product_bounds in Hr as [Hnr Hvr].
  apply product_bounds in Hg as [Hng Hvg].
  apply product_bounds in Hb as [Hnb Hvb].
  pose proof (Hsq dr ltac:(unfold dr; lia)) as Hsr.
  pose proof (Hsq dg ltac:(unfold dg; lia)) as Hsg.
  pose proof (Hsq db ltac:(unfold db; lia)) as Hsb.
  set (xr := Double.mul (Double.of_int (dr * dr)) Double.c_0_30) in *.
  set (xg := Double.mul (Double.of_int (dg * dg)) Double.c_0_59) in *.
  set (xb := Double.mul (Double.of_int (db * db)) Double.c_0_11) in *.
  destruct (DoubleFacts.add_normal (-30) xr xg Hnr Hng ltac:(lia)) as [Hns Hvs].
  change (-30 + 2) with (-28) in Hns.
  destruct (DoubleFacts.add_normal (-28) (Double.add xr xg) xb Hns
              (normal_weaken (-30) (-28) xb ltac:(lia) Hnb) ltac:(lia))
    as [Hnt Hvt].
  split; [exact Hnt|].
  set (vr := Double.val xr) in *. set (vg := Double.val xg) in *.
  set (vb := Double.val xb) in *.
  set (vs := Double.val (Double.add xr xg)) in *.
  set (vt := Double.val (Double.add (Double.add xr xg) xb)) in *.
  set (ar := dr * dr) in *. set (ag := dg * dg) in *. set (ab := db * db) in *.
  clearbody vr vg vb vs vt ar ag ab. clear -Hvr Hvg Hvb Hvs Hvt Hsr Hsg Hsb.
  lia.
Qed.

(** An entry that is strictly nearer in exact arithmetic is strictly nearer
    for the program. *)
Lemma distance_order_exact p_color q_color color :
  wf_color p_color -> wf_color q_color -> wf_color color ->
  exact_distance_100 p_color color < exact_distance_100 q_color color ->
  Double.ltb (distance p_color color) (distance q_color color) = true.
Proof.
  intros Hp Hq Hc Hlt.
  destruct (distance_value p_color color Hp Hc) as [Hnp Hvp].
  destruct (distance_value q_color color Hq Hc) as [Hnq Hvq].
  apply (DoubleFacts.ltb_of_val (-26)); [exact Hnp | exact Hnq |].
  lia.
Qed.

(** ** The nearest-entry search *)

Section Quantizer.

Variable color : SDL_Color.

Lemma closest_inv_init : closest_inv color [] 0 Double.INFINITY.
Proof.
  split; [reflexivity|]. split; [intros j p_j H; discriminate H|].
  left. split; reflexivity.
Qed.

Lemma closest_inv_keep seen ci low p_color :
  closest_inv color seen ci low ->
  Double.ltb (distance p_color color) low = false ->
  closest_inv color (seen ++ [p_color]) ci low.
Proof.
  intros (Hnn & Hlow & Hsel) Hd. split; [exact Hnn|]. split.
  - intros j p_j Hj. apply lookup_snoc_Some in Hj as [[_ Hj]|[_ <-]].
    + eapply Hlow, Hj.
    + exact Hd.
  - destruct Hsel as [Hinit|(k & p_k & Hci & Hk & Hdk & Hfirst)]; [left; exact Hinit|].
    right. exists k, p_k. repeat split; try assumption.
    + apply lookup_app_l_Some, Hk.
    + intros j p_j Hjk Hj.
      apply lookup_snoc_Some in Hj as [[_ Hj]|[Hlen _]].
      * eapply Hfirst; eassumption.
      * apply lookup_lt_Some in Hk. lia.
Qed.

Lemma closest_inv_take seen ci low p_color :
  closest_inv color seen ci low ->
  (length seen < 256)%nat ->
  Double.ltb (distance p_color color) low = true ->
  closest_inv color (seen ++ [p_color]) (u8 (Z.of_nat (length seen)))
              (distance p_color color).
Proof.
  intros (Hnn & Hlow & _) Hlen Hd.
  pose proof (distance_nonneg p_color color) as Hnd.
  split; [exact Hnd|]. split.
  - intros j p_j Hj. apply lookup_snoc_Some in Hj as [[_ Hj]|[_ <-]].
    + destruct (Double.ltb (distance p_j color) (distance p_color color)) eqn:E;
        [|reflexivity].
      rewrite <- (Hlow j p_j Hj). symmetry.
      apply (DoubleFacts.ltb_trans _ (distance p_color color));
        auto using distance_nonneg.
    + apply DoubleFacts.ltb_irrefl.
  - right. exists (length seen), p_color. repeat split.
    + unfold u8. apply Z.mod_small. lia.
    + apply lookup_snoc_Some. right. split; reflexivity.
    + intros j p_j Hjk Hj. apply lookup_snoc_Some in Hj as [[_ Hj]|[Hjl _]].
      * apply (DoubleFacts.ltb_le_trans _ low); eauto using distance_nonneg.
      * lia.
Qed.

Lemma closest_loop_inv ps : forall seen ci low,
  closest_inv color seen ci low ->
  (length (seen ++ ps) <= 256)%nat ->
  exists low',
    closest_inv color (seen ++ ps)
      (closest_loop color ps (length seen) ci low) low'.
Proof.
  induction ps as [|p_color ps IH]; intros seen ci low Hinv Hlen.
  - exists low. rewrite app_nil_r. exact Hinv.
  - rewrite length_app in Hlen. simpl in Hlen.
    replace (seen ++ p_color :: ps) with ((seen ++ [p_color]) ++ ps)
      by (rewrite <- app_assoc; reflexivity).
    assert (Hlen' : (length ((seen ++ [p_color]) ++ ps) <= 256)%nat)
      by (rewrite !length_app; simpl; lia).
    assert (HS : S (length seen) = length (seen ++ [p_color]))
      by (rewrite length_app; simpl; lia).
    simpl. destruct (Double.ltb (distance p_color color) low) eqn:Hd; rewrite HS.
    + apply IH; [|exact Hlen'].
      apply (closest_inv_take seen ci low); [exact Hinv | lia | exact Hd].
    + apply IH; [|exact Hlen'].
      apply closest_inv_keep; [exact Hinv | exact Hd].
Qed.

End Quantizer.

(** ** Loops that store one value per index *)

(** A loop whose body stores at [i] a value computed from [i] and from the
    old content of cell [i]. *)
Lemma for_loop_store_lookup (F : nat -> Z -> Z) n : forall start buf j,
  for_loop (fun i buf => <[i := F i (rd buf i)]> buf) start n buf !! j
  = if decide (start <= j < start + n)%nat then F j <$> buf !! j else buf !! j.
Proof.
  induction n as [|n IH]; intros start buf j.
  - simpl. case_decide; [lia | reflexivity].
  - simpl. rewrite IH.
    destruct (decide (j = start)) as [->|Hne].
    + rewrite decide_False by lia. rewrite decide_True by lia.
      unfold rd. destruct (buf !! start) as [x|] eqn:E; simpl.
      * apply list_lookup_insert_eq. eapply lookup_lt_Some, E.
      * rewrite list_insert_ge by (apply lookup_ge_None, E). exact E.
    + rewrite list_lookup_insert_ne by congruence.
      repeat case_decide; try lia; reflexivity.
Qed.

Lemma for_loop_store_length (F : nat -> Z -> Z) n : forall start buf,
  length (for_loop (fun i buf => <[i := F i (rd buf i)]> buf) start n buf)
  = length buf.
Proof.
  induction n as [|n IH]; intros start buf; simpl; [reflexivity|].
  rewrite IH. apply length_insert.
Qed.

Lemma rd_lookup buf i x : buf !! i = Some x -> rd buf i = x.
Proof. unfold rd. intros ->. reflexivity. Qed.

Lemma darken_loop_fmap level src :
  darken_loop level src (length src) (replicate (length src) 0)
  = darken_pixel level <$> src.
Proof.
  apply list_eq. intros j. unfold darken_loop.
  rewrite (for_loop_store_lookup (fun i _ => darken_pixel level (rd src i))).
  rewrite list_lookup_fmap. simpl.
  destruct (src !! j) as [x|] eqn:E.
  - pose proof (lookup_lt_Some _ _ _ E) as Hlt.
    rewrite decide_True by lia.
    rewrite lookup_replicate_2 by exact Hlt. simpl.
    rewrite (rd_lookup _ _ _ E). reflexivity.
  - apply lookup_ge_None in E.
    rewrite decide_False by lia.
    apply lookup_ge_None. rewrite length_replicate. exact E.
Qed.

Lemma tint_loop_fmap flag buf :
  tint_loop flag (length buf) buf = tint_pixel flag <$> buf.
Proof.
  apply list_eq. intros j. unfold tint_loop.
  rewrite (for_loop_store_lookup (fun _ color => tint_pixel flag color)).
  rewrite list_lookup_fmap. simpl.
  case_decide as Hj; [reflexivity|].
  rewrite (proj2 (lookup_ge_None buf j)) by lia. reflexivity.
Qed.

Lemma convert_loop_lookup palette src n dest j :
  length dest = n -> (j < n)%nat ->
  convert_loop palette src n dest !! j = Some (convert_pixel palette src j).
Proof.
  intros Hlen Hj. unfold convert_loop.
  rewrite (for_loop_store_lookup (fun i _ => convert_pixel palette src i)).
  rewrite decide_True by lia.
  destruct (lookup_lt_is_Some_2 dest j) as [x ->]; [lia | reflexivity].
Qed.

Lemma convert_loop_length palette src n dest :
  length (convert_loop palette src n dest) = length dest.
Proof.
  unfold convert_loop.
  apply (for_loop_store_length (fun i _ => convert_pixel palette src i)).
Qed.

(** A property of bytes can be checked on the 256 values. *)
Lemma u8_forall (f : Z -> bool) :
  forallb f (seqZ 0 256) = true -> forall v, is_u8 v -> f v = true.
Proof.
  intros H v Hv. apply (seqZ_forallb f 0 256 H). unfold is_u8 in Hv. lia.
Qed.

Lemma lor_16_u8 v :
  is_u8 v -> is_u8 (Z.lor v 16) /\ Z.testbit (Z.lor v 16) 4 = true.
Proof.
  intros Hv.
  pose proof (u8_forall
    (fun v => (0 <=? Z.lor v 16) && (Z.lor v 16 <? 256) && Z.testbit (Z.lor v 16) 4)
    eq_refl v Hv) as H.
  simpl in H. apply andb_prop in H as [H H3]. apply andb_prop in H as [H1 H2].
  unfold is_u8. split; [lia | exact H3].
Qed.

Lemma darken_pixel_cases level v :
  is_u8 v -> 0 <= level <= 8 ->
  darken_pixel level v
  = if decide (level = 8 \/ v > 255 - 32 * level) then 255 else v + 32 * level.
Proof.
  unfold is_u8, darken_pixel, UINT8_MAX, u8. intros Hv Hl.
  destruct (level =? 8) eqn:E8; simpl.
  - rewrite decide_True by lia. reflexivity.
  - destruct (v >? 255 - 32 * level) eqn:Egt.
    + rewrite decide_True by lia. reflexivity.
    + rewrite decide_False by lia. apply Z.mod_small. lia.
Qed.

Lemma updateDarkLevel_lit s rs :
  render_surface s = Some rs ->
  length (pixels rs) = Z.to_nat (pixel_count rs) ->
  updateDarkLevel s
  = let lit := mkSurface (w rs) (h rs) 8
                 (darken_pixel (darkLevel s) <$> pixels rs) in
    set_render_texture (Some (SDL_CreateTextureFromSurface lit))
      (set_lit_surface (Some lit) s).
Proof.
  intros Hrs Hlen. unfold updateDarkLevel. rewrite Hrs. simpl.
  fold (pixel_count rs). rewrite <- Hlen, darken_loop_fmap. reflexivity.
Qed.

(** C2. For every base buffer of bytes and every darkness level in [0, 8],
    the lighting loop of [updateDarkLevel] writes 255 for a value [v] when
    the level is 8 or [v > 255 - 32 * level], and [v + 32 * level]
    otherwise; the base buffer [5, 250, 0] at level 2 becomes
    [69, 255, 64]. *)
Theorem applyDarkness_cases (level : Z) (base : list Z) :
  0 <= level <= 8 ->
  Forall is_u8 base ->
  darken_loop level base (length base) (replicate (length base) 0)
  = applyDarkness_spec level <$> base
  /\ lit_surface
       (updateDarkLevel
          (mkState (Some (mkSurface 3 1 8 [5; 250; 0])) None None false 2 false 0))
     = Some (mkSurface 3 1 8 [69; 255; 64]).
Proof.
  intros Hl Hb. split; [|reflexivity].
  rewrite darken_loop_fmap.
  apply Forall_fmap_ext_1. eapply Forall_impl; [exact Hb|].
  intros v Hv. apply darken_pixel_cases; assumption.
Qed.

Lemma applyDarkness_cases_witness :
  darken_loop 2 [5; 250; 0] 3 [0; 0; 0] = applyDarkness_spec 2 <$> [5; 250; 0].
Proof.
  apply (applyDarkness_cases 2 [5; 250; 0]).
  - lia.
  - repeat constructor; unfold is_u8; lia.
Defined.

(** C8. For a byte [v] and levels [a <= b] in [0, 8], the value written at
    level [b] is at least the value written at level [a], and it never
    exceeds 255. *)
Theorem applyDarkness_monotone (v a b : Z) :
  is_u8 v -> 0 <= a -> a <= b -> b <= 8 ->
  darken_pixel a v <= darken_pixel b v <= 255.
Proof.
  intros Hv H0 Hab H8.
  rewrite !darken_pixel_cases by (assumption || lia).
  unfold is_u8 in Hv. repeat case_decide; lia.
Qed.

Lemma applyDarkness_monotone_witness :
  darken_pixel 1 200 <= darken_pixel 3 200 <= 255.
Proof.
  apply (applyDarkness_monotone 200 1 3); unfold is_u8; lia.
Defined.

(** C10. For a byte [v] and a level in [0, 8], the value written by the
    lighting loop is at least [v]. *)
Theorem applyDarkness_ge (v level : Z) :
  is_u8 v -> 0 <= level <= 8 -> v <= darken_pixel level v.
Proof.
  intros Hv Hl. rewrite darken_pixel_cases by assumption.
  unfold is_u8 in Hv. case_decide; lia.
Qed.

Lemma applyDarkness_ge_witness : 250 <= darken_pixel 2 250.
Proof.
  apply (applyDarkness_ge 250 2); unfold is_u8; lia.
Defined.

Lemma tint_pixel_true v : is_u8 v -> tint_pixel true v = Z.lor v 16.
Proof.
  intros Hv. destruct (lor_16_u8 v Hv) as [Hr _].
  unfold tint_pixel, u8. apply Z.mod_small. exact Hr.
Qed.

(** C3. For every buffer of bytes, the tint loop of [updateUnderwater] with
    the flag set replaces each value [v] by [v | 0x10], which has bit 4 set;
    with the flag clear it returns the buffer as it is; running it twice with
    the flag set gives the same buffer as running it once. *)
Theorem applyUnderwater_cases (buf : list Z) :
  Forall is_u8 buf ->
  tint_loop true (length buf) buf = (fun v => Z.lor v 16) <$> buf
  /\ Forall (fun v => Z.testbit v 4 = true) (tint_loop true (length buf) buf)
  /\ tint_loop false (length buf) buf = buf
  /\ tint_loop true (length buf) (tint_loop true (length buf) buf)
     = tint_loop true (length buf) buf.
Proof.
  intros Hb.
  assert (Htrue : tint_loop true (length buf) buf = (fun v => Z.lor v 16) <$> buf).
  { rewrite tint_loop_fmap. apply Forall_fmap_ext_1.
    eapply Forall_impl; [exact Hb|]. intros v Hv. apply tint_pixel_true, Hv. }
  assert (Hu8 : Forall is_u8 ((fun v => Z.lor v 16) <$> buf)).
  { apply Forall_fmap. eapply Forall_impl; [exact Hb|].
    intros v Hv. apply lor_16_u8, Hv. }
  split; [exact Htrue|]. split; [|split].
  - rewrite Htrue. apply Forall_fmap. eapply Forall_impl; [exact Hb|].
    intros v Hv. apply lor_16_u8, Hv.
  - rewrite tint_loop_fmap. unfold tint_pixel. apply list_fmap_id.
  - rewrite Htrue.
    replace (length buf) with (length ((fun v => Z.lor v 16) <$> buf))
      by apply length_fmap.
    rewrite tint_loop_fmap. rewrite <- list_fmap_compose.
    apply Forall_fmap_ext_1. eapply Forall_impl; [exact Hb|].
    intros v Hv. unfold compose.
    rewrite tint_pixel_true by (apply lor_16_u8, Hv).
    rewrite <- Z.lor_assoc. reflexivity.
Qed.

Lemma applyUnderwater_cases_witness :
  tint_loop true 3 [0; 16; 255] = [16; 16; 255].
Proof.
  apply (applyUnderwater_cases [0; 16; 255]).
  repeat constructor; unfold is_u8; lia.
Defined.

(** ** What the handlers leave alone *)

Lemma updateDarkLevel_frame s :
  darkLevel (updateDarkLevel s) = darkLevel s /\
  underWater (updateDarkLevel s) = underWater s /\
  render_surface (updateDarkLevel s) = render_surface s /\
  exitRequested (updateDarkLevel s) = exitRequested s /\
  error_dialogs (updateDarkLevel s) = error_dialogs s /\
  (is_Some (render_surface s) -> is_Some (lit_surface (updateDarkLevel s))).
Proof.
  unfold updateDarkLevel.
  destruct (render_surface s) as [rs|] eqn:E; simpl; rewrite ?E; repeat split; eauto.
  intros [x Hx]. discriminate Hx.
Qed.

(** The two updates that follow every key press never dereference a null
    [lit_surface]. *)
Lemma update_pair_total s :
  exists s', updateUnderwater (updateDarkLevel s) = Some s' /\
    darkLevel s' = darkLevel s /\ underWater s' = underWater s /\
    render_surface s' = render_surface s /\
    exitRequested s' = exitRequested s /\
    error_dialogs s' = error_dialogs s.
Proof.
  destruct (updateDarkLevel_frame s) as (Hd & Hu & Hr & He & Hn & Hlit).
  unfold updateUnderwater.
  destruct (render_surface (updateDarkLevel s)) as [rs|] eqn:E.
  - destruct Hlit as [lit Hl]; [rewrite <- Hr; eauto|]. rewrite Hl.
    eexists. split; [reflexivity|]. simpl. rewrite E. auto.
  - eexists. split; [reflexivity|]. rewrite E. auto.
Qed.

Lemma renderNewSurface_frame palette env surface s :
  let s' := snd (renderNewSurface palette env surface s) in
  darkLevel s' = darkLevel s /\ underWater s' = underWater s /\
  lit_surface s' = lit_surface s /\ exitRequested s' = exitRequested s /\
  error_dialogs s' = error_dialogs s.
Proof.
  unfold renderNewSurface.
  destruct (create_surface_ok env); simpl; [|auto 10].
  destruct (set_palette_ok env); simpl; [|auto 10].
  destruct (negb (conv_ret _ =? 0)); simpl; [auto 10|].
  destruct (create_texture_ok env); simpl; [|auto 10].
  destruct (conv_dest _); simpl; [|auto 10].
  destruct (set_logical_size_ok env); simpl; [|auto 10].
  destruct (render_copy_ok env); simpl; auto 10.
Qed.

Lemma loadNewBMP_frame palette env temp s :
  let s' := snd (loadNewBMP palette env temp s) in
  darkLevel s' = darkLevel s /\ underWater s' = underWater s /\
  lit_surface s' = lit_surface s /\ exitRequested s' = exitRequested s /\
  error_dialogs s' = error_dialogs s.
Proof.
  destruct temp as [surface|]; simpl; [apply renderNewSurface_frame | auto 10].
Qed.

Lemma handleEvent_drop palette env temp s :
  handleEvent palette (SDL_DROPFILE temp env) s
  = Some (if negb (fst (loadNewBMP palette env temp s) =? 0)
          then show_error_dialog (snd (loadNewBMP palette env temp s))
          else snd (loadNewBMP palette env temp s)).
Proof.
  unfold handleEvent. destruct (loadNewBMP palette env temp s) as [err s']; simpl.
  destruct (negb (err =? 0)); reflexivity.
Qed.

Lemma handleEvent_level palette event s :
  0 <= darkLevel s <= 8 ->
  exists s', handleEvent palette event s = Some s' /\ 0 <= darkLevel s' <= 8.
Proof.
  intros Hl. destruct event as [|temp env|[]|].
  - eexists. split; [reflexivity|]. exact Hl.
  - rewrite handleEvent_drop. eexists. split; [reflexivity|].
    destruct (loadNewBMP_frame palette env temp s) as (Hd & _).
    destruct (negb _); simpl; rewrite Hd; exact Hl.
  - simpl. destruct (update_pair_total
      (if darkLevel s >? 0 then set_darkLevel (darkLevel s - 1) s else s))
      as (s' & Hs' & Hd & _).
    exists s'. split; [exact Hs'|]. rewrite Hd.
    destruct (darkLevel s >? 0) eqn:E; simpl; lia.
  - simpl. destruct (update_pair_total
      (if darkLevel s <? 8 then set_darkLevel (darkLevel s + 1) s else s))
      as (s' & Hs' & Hd & _).
    exists s'. split; [exact Hs'|]. rewrite Hd.
    destruct (darkLevel s <? 8) eqn:E; simpl; lia.
  - simpl. destruct (update_pair_total (set_underWater (negb (underWater s)) s))
      as (s' & Hs' & Hd & _).
    exists s'. split; [exact Hs'|]. rewrite Hd. exact Hl.
  - eexists. split; [reflexivity|]. exact Hl.
  - eexists. split; [reflexivity|]. exact Hl.
Qed.

Lemma handleEvents_level palette events : forall s,
  0 <= darkLevel s <= 8 ->
  exists s', handleEvents palette events s = Some s' /\ 0 <= darkLevel s' <= 8.
Proof.
  induction events as [|event events IH]; intros s Hl; simpl.
  - exists s. split; [reflexivity | exact Hl].
  - destruct (handleEvent_level palette event s Hl) as (s1 & -> & Hl1).
    apply IH, Hl1.
Qed.

Lemma main_loop_level palette frames : forall s,
  0 <= darkLevel s <= 8 ->
  exists s', main_loop palette frames s = Some s' /\ 0 <= darkLevel s' <= 8.
Proof.
  induction frames as [|events frames IH]; intros s Hl; simpl.
  - exists s. destruct (exitRequested s); split; auto.
  - destruct (exitRequested s); [exists s; split; auto|].
    destruct (handleEvents_level palette events s Hl) as (s1 & -> & Hl1).
    apply IH, Hl1.
Qed.

(** C9. From the initial state (level 0), after every sequence of frames of
    the main loop and after every sequence of events, the handler has run
    to completion and the darkness level is in [0, 8]; in a state so reached,
    the key that decrements leaves a level 0 at 0 and the key that increments
    leaves a level 8 at 8. *)
Theorem darkLevel_in_range (palette : list SDL_Color)
    (frames : list (list SDL_Event)) (events : list SDL_Event) :
  (exists s, main_loop palette frames initial_state = Some s /\
             0 <= darkLevel s <= 8)
  /\ (exists s, handleEvents palette events initial_state = Some s /\
        0 <= darkLevel s <= 8 /\
        (darkLevel s = 0 ->
           darkLevel <$> handleEvent palette (SDL_KEYDOWN SDL_SCANCODE_UP) s
           = Some 0) /\
        (darkLevel s = 8 ->
           darkLevel <$> handleEvent palette (SDL_KEYDOWN SDL_SCANCODE_DOWN) s
           = Some 8)).
Proof.
  assert (H0 : 0 <= darkLevel initial_state <= 8) by (simpl; lia).
  split; [apply main_loop_level, H0|].
  destruct (handleEvents_level palette events initial_state H0) as (s & Hs & Hl).
  exists s. split; [exact Hs|]. split; [exact Hl|]. split; intros Hd; simpl.
  - destruct (update_pair_total
      (if darkLevel s >? 0 then set_darkLevel (darkLevel s - 1) s else s))
      as (s' & -> & Hd' & _). simpl. rewrite Hd', Hd. simpl. f_equal. exact Hd.
  - destruct (update_pair_total
      (if darkLevel s <? 8 then set_darkLevel (darkLevel s + 1) s else s))
      as (s' & -> & Hd' & _). simpl. rewrite Hd', Hd. simpl. f_equal. exact Hd.
Qed.

(** ** The checks of [convertSurfaceToIndex] *)

Lemma convert_failure_keeps_dest palette env source dest :
  conv_ret (convertSurfaceToIndex palette env source dest) <> 0 ->
  conv_dest (convertSurfaceToIndex palette env source dest) = dest.
Proof.
  unfold convertSurfaceToIndex.
  destruct source as [src|], dest as [dst|]; try reflexivity.
  destruct (negb (BitsPerPixel src =? 24)); [reflexivity|].
  destruct (negb (BitsPerPixel dst =? 8)); [reflexivity|].
  destruct (negb (pixel_count src =? pixel_count dst)); [reflexivity|].
  destruct (negb (lock_source_ok env)); [reflexivity|].
  destruct (negb (lock_dest_ok env)); [reflexivity|].
  simpl. intros H. contradiction H. reflexivity.
Qed.

Lemma convert_rejects_source_format palette env source dest :
  BitsPerPixel source <> 24 ->
  conv_ret (convertSurfaceToIndex palette env (Some source) dest) <> 0.
Proof.
  intros Hbpp. unfold convertSurfaceToIndex. destruct dest as [dst|].
  - destruct (Z.eqb_spec (BitsPerPixel source) 24) as [E|_]; [contradiction|].
    simpl. discriminate.
  - simpl. discriminate.
Qed.

(** C7 as stated fails at this input: an 8-bit source of one pixel and a
    destination of two pixels differ in pixel count, and the call fails on
    the format of the source, not on the resolution. *)
Lemma format_check_precedes_resolution :
  let source := mkSurface 1 1 8 [0] in
  let dest := mkSurface 2 1 8 [0; 0] in
  pixel_count source <> pixel_count dest /\
  conv_ret (convertSurfaceToIndex sample_palette env_ok (Some source) (Some dest))
  = 1 /\
  conv_error (convertSurfaceToIndex sample_palette env_ok (Some source) (Some dest))
  = Some msg_source_format /\
  conv_error (convertSurfaceToIndex sample_palette env_ok (Some source) (Some dest))
  <> Some msg_resolution.
Proof.
  simpl. split; [discriminate|]. split; [reflexivity|].
  split; [reflexivity | discriminate].
Qed.

(** C7, amended. On two surfaces the checks run in this order: the call
    fails on the source format exactly when the source is not 24-bit; on the
    destination format exactly when the source is 24-bit and the destination
    is not 8-bit; on the resolution exactly when both formats are right and
    the pixel counts differ. Every failure returns 1 and leaves the
    destination as it was. With both formats right, equal pixel counts and
    both surfaces locked, the call returns 0. *)
Theorem convert_checks_in_order (palette : list SDL_Color) (env : SDL_Env)
    (source dest : SDL_Surface) :
  let res := convertSurfaceToIndex palette env (Some source) (Some dest) in
  (conv_error res = Some msg_source_format <-> BitsPerPixel source <> 24)
  /\ (conv_error res = Some msg_dest_format <->
        BitsPerPixel source = 24 /\ BitsPerPixel dest <> 8)
  /\ (conv_error res = Some msg_resolution <->
        BitsPerPixel source = 24 /\ BitsPerPixel dest = 8 /\
        pixel_count source <> pixel_count dest)
  /\ (conv_ret res = 0 \/ conv_ret res = 1)
  /\ (conv_ret res <> 0 -> conv_dest res = Some dest)
  /\ (conv_ret res = 0 <->
        BitsPerPixel source = 24 /\ BitsPerPixel dest = 8 /\
        pixel_count source = pixel_count dest /\
        lock_source_ok env = true /\ lock_dest_ok env = true).
Proof.
  unfold convertSurfaceToIndex.
  destruct (Z.eqb_spec (BitsPerPixel source) 24) as [Hs|Hs]; simpl.
  2: { repeat split; intros; try tauto; try discriminate; try intuition congruence;
       auto. }
  destruct (Z.eqb_spec (BitsPerPixel dest) 8) as [Hd|Hd]; simpl.
  2: { repeat split; intros; try tauto; try discriminate; try intuition congruence;
       auto. }
  destruct (Z.eqb_spec (pixel_count source) (pixel_count dest)) as [Hc|Hc]; simpl.
  2: { repeat split; intros; try tauto; try discriminate; try intuition congruence;
       auto. }
  destruct (lock_source_ok env); simpl.
  2: { repeat split; intros; try tauto; try discriminate; try intuition congruence;
       auto. }
  destruct (lock_dest_ok env); simpl;
    repeat split; intros; try tauto; try discriminate; try intuition congruence;
    auto.
Qed.

(** ** Loading an image: [SDL_DROPFILE] *)

Lemma renderNewSurface_convert_fails palette env surface s :
  create_surface_ok env = true -> set_palette_ok env = true ->
  conv_ret (convertSurfaceToIndex palette env (Some surface)
              (Some (create_index8_surface (w surface) (h surface)))) <> 0 ->
  renderNewSurface palette env surface s
  = (1, set_render_surface
          (Some (create_index8_surface (w surface) (h surface))) s).
Proof.
  intros Hc Hp Hconv.
  pose proof (convert_failure_keeps_dest palette env (Some surface)
                (Some (create_index8_surface (w surface) (h surface))) Hconv)
    as Hdest.
  unfold renderNewSurface. rewrite Hc, Hp.
  cbn [negb render_surface set_render_surface].
  set (res := convertSurfaceToIndex _ _ _ _) in *.
  destruct (Z.eqb_spec (conv_ret res) 0) as [E|E]; [contradiction|].
  cbn [negb]. rewrite Hdest. reflexivity.
Qed.

(** C4 as stated fails at this run: a white 1x1 image is dropped and
    loaded, then a file that decodes to an 8-bit surface of 2x1 is dropped.
    The second load is reported as a failure and the displayed texture
    stays, but the base buffer is no longer the one of the image on display:
    it is the zero-filled 2x1 buffer allocated for the rejected file. *)
Lemma failed_load_replaces_base :
  exists s1 s2,
    handleEvents sample_palette [SDL_DROPFILE (Some white_1x1) env_ok]
      initial_state = Some s1 /\
    render_surface s1 = Some (mkSurface 1 1 8 [0]) /\
    fst (loadNewBMP sample_palette env_ok (Some (mkSurface 2 1 8 [3; 4])) s1)
    = 1 /\
    handleEvent sample_palette
      (SDL_DROPFILE (Some (mkSurface 2 1 8 [3; 4])) env_ok) s1 = Some s2 /\
    error_dialogs s2 = 1%nat /\
    render_texture s2 = render_texture s1 /\
    render_surface s2 = Some (mkSurface 2 1 8 [0; 0]) /\
    render_surface s2 <> render_surface s1.
Proof.
  do 2 eexists. split; [vm_compute; reflexivity|].
  split; [reflexivity|]. split; [reflexivity|].
  split; [vm_compute; reflexivity|].
  split; [reflexivity|]. split; [reflexivity|].
  split; [reflexivity | discriminate].
Qed.

(** C4, amended. When a drop event fails to load its file, the handler shows
    an error, and the darkness level, the underwater flag and the lit buffer
    are as before. When the failure is that the file does not decode, the
    base buffer and the displayed texture are as before too. When the file
    decodes to a surface that is not 24-bit (and the new index surface could
    be allocated and given the palette), the displayed texture is as before,
    and the base buffer is the new zero-filled index surface of the size of
    the dropped image. *)
Theorem failed_load_frame (palette : list SDL_Color) (env : SDL_Env)
    (temp : option SDL_Surface) (s : State) :
  fst (loadNewBMP palette env temp s) <> 0 ->
  exists s', handleEvent palette (SDL_DROPFILE temp env) s = Some s' /\
    error_dialogs s' = S (error_dialogs s) /\
    darkLevel s' = darkLevel s /\ underWater s' = underWater s /\
    lit_surface s' = lit_surface s /\
    (temp = None ->
       render_surface s' = render_surface s /\
       render_texture s' = render_texture s) /\
    (forall surface, temp = Some surface ->
       BitsPerPixel surface <> 24 ->
       create_surface_ok env = true -> set_palette_ok env = true ->
       render_texture s' = render_texture s /\
       render_surface s'
       = Some (create_index8_surface (w surface) (h surface))).
Proof.
  intros Hfail. rewrite handleEvent_drop.
  destruct (Z.eqb_spec (fst (loadNewBMP palette env temp s)) 0) as [E|_];
    [contradiction|]. simpl.
  eexists. split; [reflexivity|].
  destruct (loadNewBMP_frame palette env temp s) as (Hd & Hu & Hl & _ & Hn).
  simpl. rewrite Hd, Hu, Hl, Hn.
  do 4 (split; [reflexivity|]). split.
  - intros ->. split; reflexivity.
  - intros surface -> Hbpp Hc Hp. simpl.
    rewrite renderNewSurface_convert_fails; [split; reflexivity|..];
      try assumption.
    apply convert_rejects_source_format, Hbpp.
Qed.

Lemma failed_load_frame_witness :
  exists s',
    handleEvent sample_palette
      (SDL_DROPFILE (Some (mkSurface 2 1 8 [3; 4])) env_ok)
      (mkState (Some (mkSurface 1 1 8 [7])) (Some (mkSurface 1 1 8 [7]))
               (Some (mkTexture 1 1 [7])) false 0 false 0) = Some s' /\
    error_dialogs s' = 1%nat.
Proof.
  destruct (failed_load_frame sample_palette env_ok
              (Some (mkSurface 2 1 8 [3; 4]))
              (mkState (Some (mkSurface 1 1 8 [7])) (Some (mkSurface 1 1 8 [7]))
                       (Some (mkTexture 1 1 [7])) false 0 false 0))
    as (s' & Hs' & Hn & _).
  - simpl. discriminate.
  - exists s'. split; [exact Hs' | exact Hn].
Defined.

(** ** Key presses *)

Lemma updateUnderwater_lit s rs lit :
  render_surface s = Some rs ->
  lit_surface s = Some lit ->
  length (pixels lit) = Z.to_nat (pixel_count lit) ->
  updateUnderwater s
  = let lit' := mkSurface (w lit) (h lit) (BitsPerPixel lit)
                          (tint_pixel (underWater s) <$> pixels lit) in
    Some (set_render_texture (Some (SDL_CreateTextureFromSurface lit'))
            (set_lit_surface (Some lit') s)).
Proof.
  intros Hrs Hlit Hlen. unfold updateUnderwater. rewrite Hrs, Hlit.
  cbv zeta. rewrite <- Hlen, tint_loop_fmap. reflexivity.
Qed.

(** The pipeline after a key press: the lit buffer is the base buffer
    darkened, then tinted. *)
Lemma update_pair_lit s base :
  render_surface s = Some base ->
  length (pixels base) = Z.to_nat (pixel_count base) ->
  updateUnderwater (updateDarkLevel s)
  = let lit := mkSurface (w base) (h base) 8
                 (tint_pixel (underWater s)
                    <$> (darken_pixel (darkLevel s) <$> pixels base)) in
    Some (set_render_texture (Some (SDL_CreateTextureFromSurface lit))
            (set_lit_surface (Some lit) s)).
Proof.
  intros Hrs Hlen. rewrite (updateDarkLevel_lit s base Hrs Hlen). cbv zeta.
  rewrite (updateUnderwater_lit _ base
             (mkSurface (w base) (h base) 8
                (darken_pixel (darkLevel s) <$> pixels base))).
  - reflexivity.
  - simpl. exact Hrs.
  - reflexivity.
  - simpl. rewrite length_fmap. exact Hlen.
Qed.

(** C5 as stated fails at this run: a white 1x1 image is dropped and the
    flag is switched on, which leaves the lit buffer [16]. Switching the
    flag off then yields the lit buffer [0], recomputed from the base
    buffer, where the tint toggler alone would have left [16]. *)
Lemma toggle_reruns_brightness_mapper :
  exists s1 s2 s2',
    handleEvents sample_palette
      [SDL_DROPFILE (Some white_1x1) env_ok; SDL_KEYDOWN SDL_SCANCODE_SPACE]
      initial_state = Some s1 /\
    pixels <$> lit_surface s1 = Some [16] /\
    handleEvent sample_palette (SDL_KEYDOWN SDL_SCANCODE_SPACE) s1 = Some s2 /\
    toggle_tint_only s1 = Some s2' /\
    pixels <$> lit_surface s2 = Some [0] /\
    pixels <$> lit_surface s2' = Some [16].
Proof.
  do 3 eexists. split; [vm_compute; reflexivity|].
  split; [reflexivity|]. split; [vm_compute; reflexivity|].
  split; [vm_compute; reflexivity|]. split; reflexivity.
Qed.

(** C5, amended. For every toggle event with an image loaded, the flag is
    flipped and both stages run again: the lit buffer is recomputed from the
    base buffer at the current darkness level and then tinted under the new
    flag, and that buffer is displayed; the base buffer and the darkness
    level are unchanged. *)
Theorem toggle_recomputes_lit (palette : list SDL_Color) (s : State)
    (base : SDL_Surface) :
  render_surface s = Some base ->
  length (pixels base) = Z.to_nat (pixel_count base) ->
  exists s' lit,
    handleEvent palette (SDL_KEYDOWN SDL_SCANCODE_SPACE) s = Some s' /\
    underWater s' = negb (underWater s) /\
    darkLevel s' = darkLevel s /\
    render_surface s' = Some base /\
    lit = mkSurface (w base) (h base) 8
            (tint_pixel (negb (underWater s))
               <$> (darken_pixel (darkLevel s) <$> pixels base)) /\
    lit_surface s' = Some lit /\
    render_texture s' = Some (SDL_CreateTextureFromSurface lit).
Proof.
  intros Hrs Hlen. simpl.
  rewrite (update_pair_lit (set_underWater (negb (underWater s)) s) base)
    by (simpl; assumption).
  cbv zeta. do 2 eexists. split; [reflexivity|]. simpl.
  repeat split; try reflexivity. exact Hrs.
Qed.

Lemma toggle_recomputes_lit_witness :
  exists s',
    handleEvent sample_palette (SDL_KEYDOWN SDL_SCANCODE_SPACE)
      (mkState (Some (mkSurface 1 1 8 [0])) (Some (mkSurface 1 1 8 [16]))
               (Some (mkTexture 1 1 [16])) false 0 true 0) = Some s' /\
    lit_surface s' = Some (mkSurface 1 1 8 [0]).
Proof.
  destruct (toggle_recomputes_lit sample_palette
              (mkState (Some (mkSurface 1 1 8 [0])) (Some (mkSurface 1 1 8 [16]))
                       (Some (mkTexture 1 1 [16])) false 0 true 0)
              (mkSurface 1 1 8 [0]))
    as (s' & lit & Hs' & _ & _ & _ & Hlit & Hl & _).
  - reflexivity.
  - reflexivity.
  - exists s'. split; [exact Hs'|]. rewrite Hl, Hlit. reflexivity.
Defined.

Lemma renderNewSurface_ok palette env surface s :
  fst (renderNewSurface palette env surface s) = 0 ->
  BitsPerPixel surface = 24 /\
  snd (renderNewSurface palette env surface s)
  = set_render_texture
      (Some (SDL_CreateTextureFromSurface (quantized_surface palette surface)))
      (set_render_surface (Some (quantized_surface palette surface)) s).
Proof.
  unfold renderNewSurface.
  destruct (create_surface_ok env); [|discriminate].
  destruct (set_palette_ok env); [|discriminate].
  cbn [negb render_surface set_render_surface].
  unfold convertSurfaceToIndex.
  destruct (Z.eqb_spec (BitsPerPixel surface) 24) as [Hbpp|Hbpp]; [|discriminate].
  cbn [negb BitsPerPixel create_index8_surface Z.eqb Pos.eqb].
  replace (pixel_count (mkSurface (w surface) (h surface) 8
             (replicate (Z.to_nat (w surface * h surface)) 0)))
    with (pixel_count surface) by reflexivity.
  rewrite Z.eqb_refl. cbn [negb].
  destruct (lock_source_ok env); [|discriminate].
  destruct (lock_dest_ok env); [|discriminate].
  cbn [negb conv_ret conv_dest Z.eqb render_surface set_render_surface
       set_render_texture fmap option_fmap option_map render_texture].
  destruct (create_texture_ok env); [|discriminate].
  destruct (set_logical_size_ok env); [|discriminate].
  destruct (render_copy_ok env); [|discriminate].
  intros _. split; [exact Hbpp | reflexivity].
Qed.

(** C6 as stated fails at this run: the level is raised to 1 and a white
    1x1 image is dropped. The load succeeds and the level is still 1, but
    the displayed texture is the quantised buffer [0] itself; darkened at
    level 1 and tinted at the current flag it would be [32]. No lit buffer
    has been computed. *)
Lemma drop_displays_base_buffer :
  exists s1 s2,
    handleEvents sample_palette [SDL_KEYDOWN SDL_SCANCODE_DOWN] initial_state
    = Some s1 /\
    handleEvent sample_palette (SDL_DROPFILE (Some white_1x1) env_ok) s1
    = Some s2 /\
    error_dialogs s2 = 0%nat /\
    darkLevel s2 = 1 /\ underWater s2 = false /\
    render_surface s2 = Some (mkSurface 1 1 8 [0]) /\
    render_texture s2 = Some (mkTexture 1 1 [0]) /\
    tint_pixel (underWater s2) <$> (darken_pixel (darkLevel s2) <$> [0]) = [32] /\
    lit_surface s2 = None.
Proof.
  do 2 eexists. split; [vm_compute; reflexivity|].
  split; [vm_compute; reflexivity|]. repeat split; reflexivity.
Qed.

(** C6, amended. For every successful image-drop event the darkness level
    and the underwater flag are not reset and no error is shown; the new
    image is quantised into a new base buffer of its size, each value being
    the palette index found for the pixel, and the displayed texture is that
    base buffer itself; the lit buffer is left as it was. *)
Theorem drop_replaces_base (palette : list SDL_Color) (env : SDL_Env)
    (surface : SDL_Surface) (s : State) :
  fst (loadNewBMP palette env (Some surface) s) = 0 ->
  exists s' base,
    handleEvent palette (SDL_DROPFILE (Some surface) env) s = Some s' /\
    darkLevel s' = darkLevel s /\ underWater s' = underWater s /\
    error_dialogs s' = error_dialogs s /\
    lit_surface s' = lit_surface s /\
    render_surface s' = Some base /\
    w base = w surface /\ h base = h surface /\ BitsPerPixel base = 8 /\
    length (pixels base) = Z.to_nat (pixel_count surface) /\
    (forall i, (i < Z.to_nat (pixel_count surface))%nat ->
       pixels base !! i = Some (convert_pixel palette (pixels surface) i)) /\
    render_texture s' = Some (SDL_CreateTextureFromSurface base).
Proof.
  intros Hok. rewrite handleEvent_drop. rewrite Hok. cbn [Z.eqb negb].
  simpl in Hok. destruct (renderNewSurface_ok palette env surface s Hok) as [_ Hs].
  cbn [loadNewBMP]. rewrite Hs.
  exists (set_render_texture
            (Some (SDL_CreateTextureFromSurface (quantized_surface palette surface)))
            (set_render_surface (Some (quantized_surface palette surface)) s)),
         (quantized_surface palette surface).
  assert (Hlen : length (pixels (quantized_surface palette surface))
                 = Z.to_nat (pixel_count surface)).
  { simpl. rewrite convert_loop_length, length_replicate. reflexivity. }
  repeat split; try reflexivity; try exact Hlen.
  intros i Hi. simpl. apply convert_loop_lookup; [|exact Hi].
  apply length_replicate.
Qed.

Lemma drop_replaces_base_witness :
  exists s',
    handleEvent sample_palette (SDL_DROPFILE (Some white_1x1) env_ok)
      (mkState None None None false 1 false 0) = Some s' /\
    darkLevel s' = 1.
Proof.
  destruct (drop_replaces_base sample_palette env_ok white_1x1
              (mkState None None None false 1 false 0))
    as (s' & base & Hs' & Hd & _).
  - vm_compute. reflexivity.
  - exists s'. split; [exact Hs' | exact Hd].
Defined.

(** ** The quantiser returns the nearest entry, the first among equals *)

Lemma findClosestPaletteEntry_spec palette color :
  (0 < length palette <= 256)%nat ->
  exists k p_k,
    findClosestPaletteEntry palette color = Z.of_nat k /\
    palette !! k = Some p_k /\
    (forall j p_j, palette !! j = Some p_j ->
       Double.ltb (distance p_j color) (distance p_k color) = false) /\
    (forall j p_j, palette !! j = Some p_j -> (j < k)%nat ->
       Double.ltb (distance p_k color) (distance p_j color) = true).
Proof.
  intros [Hpos Hle].
  destruct (closest_loop_inv color palette [] 0 Double.INFINITY
              (closest_inv_init color) Hle) as (low & Hnn & Hlow & Hsel).
  simpl in Hlow, Hsel. fold (findClosestPaletteEntry palette color) in Hsel.
  destruct Hsel as [[-> Hres]|(k & p_k & Hres & Hk & -> & Hfirst)].
  - destruct (lookup_lt_is_Some_2 palette 0 Hpos) as [p_0 H0].
    exists 0%nat, p_0. split; [exact Hres|]. split; [exact H0|].
    rewrite (DoubleFacts.not_below_infinity (distance p_0 color)
               (distance_nonneg p_0 color) (Hlow _ _ H0)).
    split; [exact Hlow | intros j p_j _ Hj; lia].
  - exists k, p_k. split; [exact Hres|]. split; [exact Hk|].
    split; [exact Hlow|]. intros j p_j Hj Hjk. eapply Hfirst; eassumption.
Qed.

Lemma rgb888_pixel_wf source i :
  rgb888_surface source -> (i < Z.to_nat (pixel_count source))%nat ->
  wf_color (mkColor (rd (pixels source) (i * 3 + 2))
                    (rd (pixels source) (i * 3 + 1))
                    (rd (pixels source) (i * 3)) 0).
Proof.
  intros (_ & Hlen & Hu8) Hi.
  assert (Hrd : forall j, (j < length (pixels source))%nat ->
                          is_u8 (rd (pixels source) j)).
  { intros j Hj. destruct (lookup_lt_is_Some_2 _ _ Hj) as [x Hx].
    rewrite (rd_lookup _ _ _ Hx).
    eapply Forall_lookup_1; eassumption. }
  unfold wf_color; simpl. repeat split; try (apply Hrd; lia); lia.
Qed.

(** C1. For every 24-bit image and every pixel [i] of it, the quantiser
    stores at [i] the palette index returned by [findClosestPaletteEntry]
    for the colour of that pixel (its three bytes read as blue, green, red).
    With [distance] the weighted squared distance
    0.30 * dR^2 + 0.59 * dG^2 + 0.11 * dB^2 as the program evaluates it in
    double precision, no entry of the 256-entry palette has a distance
    below that of the returned entry, and every entry at a lower index has a
    distance strictly above it: the returned index is the lowest one at the
    minimum, and a later entry at the same distance does not replace it.
    In exact arithmetic too, no entry is strictly nearer to the pixel than
    the returned one. *)
Theorem quantize_nearest_lowest_index (palette : list SDL_Color) (env : SDL_Env)
    (source dest : SDL_Surface) (i : nat) :
  length palette = 256%nat ->
  Forall wf_color palette ->
  rgb888_surface source ->
  index8_surface dest ->
  pixel_count source = pixel_count dest ->
  lock_source_ok env = true -> lock_dest_ok env = true ->
  (i < Z.to_nat (pixel_count source))%nat ->
  let color := mkColor (rd (pixels source) (i * 3 + 2))
                       (rd (pixels source) (i * 3 + 1))
                       (rd (pixels source) (i * 3)) 0 in
  exists dest' k p_k,
    convertSurfaceToIndex palette env (Some source) (Some dest)
    = mkConvertResult 0 None (Some dest') /\
    pixels dest' !! i = Some (Z.of_nat k) /\
    findClosestPaletteEntry palette color = Z.of_nat k /\
    palette !! k = Some p_k /\
    (forall j p_j, palette !! j = Some p_j ->
       Double.ltb (distance p_j color) (distance p_k color) = false) /\
    (forall j p_j, palette !! j = Some p_j -> (j < k)%nat ->
       Double.ltb (distance p_k color) (distance p_j color) = true) /\
    (forall j p_j, palette !! j = Some p_j ->
       exact_distance_100 p_k color <= exact_distance_100 p_j color).
Proof.
  intros Hpal Hwf Hsrc Hdst Hcount Hls Hld Hi color.
  assert (Hcolor : wf_color color) by (apply rgb888_pixel_wf; assumption).
  destruct (findClosestPaletteEntry_spec palette color)
    as (k & p_k & Hres & Hk & Hmin & Hfirst); [lia|].
  destruct Hsrc as (Hsbpp & _). destruct Hdst as (Hdbpp & Hdlen).
  eexists _, k, p_k. split; [|split]; [| |split; [exact Hres|]].
  - unfold convertSurfaceToIndex.
    rewrite Hsbpp, Hdbpp, Hcount, !Z.eqb_refl, Hls, Hld. reflexivity.
  - simpl. rewrite convert_loop_lookup; [|lia|lia].
    unfold convert_pixel. fold color. rewrite Hres. reflexivity.
  - split; [exact Hk|]. split; [exact Hmin|]. split; [exact Hfirst|].
    intros j p_j Hj.
    destruct (Z.le_gt_cases (exact_distance_100 p_k color)
                (exact_distance_100 p_j color)) as [Hle|Hgt]; [exact Hle|].
    exfalso.
    assert (Hlt : Double.ltb (distance p_j color) (distance p_k color) = true).
    { apply distance_order_exact; try assumption.
      - eapply Forall_lookup_1; eassumption.
      - eapply Forall_lookup_1; eassumption. }
    rewrite (Hmin j p_j Hj) in Hlt. discriminate Hlt.
Qed.

Lemma sample_palette_wf : Forall wf_color sample_palette.
Proof.
  unfold sample_palette. apply Forall_fmap, Forall_forall.
  intros v Hv. apply elem_of_seqZ in Hv.
  unfold wf_color, is_u8; simpl. lia.
Qed.

(** Rounding can separate two entries that are equally far in exact
    arithmetic: for the pixel (10, 10, 10), the colours (11, 15, 17) and
    (10, 14, 20) are both at 20.44, and the program finds the second one
    nearer. *)
Example rounding_separates_exact_ties :
  let color := mkColor 10 10 10 0 in
  let p_0 := mkColor 11 15 17 0 in
  let p_1 := mkColor 10 14 20 0 in
  exact_distance_100 p_0 color = 2044 /\
  exact_distance_100 p_1 color = 2044 /\
  Double.ltb (distance p_1 color) (distance p_0 color) = true.
Proof. vm_compute. repeat split; reflexivity. Qed.

Lemma quantize_nearest_lowest_index_witness :
  exists dest' k,
    convertSurfaceToIndex sample_palette env_ok
      (Some (mkSurface 2 1 24 [10; 10; 10; 255; 255; 255]))
      (Some (mkSurface 2 1 8 [0; 0]))
    = mkConvertResult 0 None (Some dest') /\
    pixels dest' !! 0%nat = Some (Z.of_nat k).
Proof.
  destruct (quantize_nearest_lowest_index sample_palette env_ok
              (mkSurface 2 1 24 [10; 10; 10; 255; 255; 255])
              (mkSurface 2 1 8 [0; 0]) 0)
    as (dest' & k & p_k & Hconv & Hpix & _).
  - reflexivity.
  - exact sample_palette_wf.
  - split; [reflexivity|]. split; [reflexivity|].
    repeat constructor; unfold is_u8; lia.
  - split; reflexivity.
  - reflexivity.
  - reflexivity.
  - reflexivity.
  - vm_compute. lia.
  - exists dest', k. split; [exact Hconv | exact Hpix].
Defined.

(** * Further properties of the quantiser *)

Lemma distance_same_rgb p p' c c' :
  same_rgb p p' -> same_rgb c c' -> distance p c = distance p' c'.
Proof.
  intros (Hr & Hg & Hb) (Hr' & Hg' & Hb'). unfold distance.
  rewrite Hr, Hg, Hb, Hr', Hg', Hb'. reflexivity.
Qed.

Lemma exact_distance_nonneg p c : 0 <= exact_distance_100 p c.
Proof.
  unfold exact_distance_100.
  pose proof (Z.square_nonneg (r p - r c)).
  pose proof (Z.square_nonneg (g p - g c)).
  pose proof (Z.square_nonneg (b p - b c)). lia.
Qed.

Lemma exact_distance_zero p c :
  exact_distance_100 p c = 0 <-> same_rgb p c.
Proof.
  unfold exact_distance_100, same_rgb. split.
  - intros H.
    pose proof (Z.square_nonneg (r p - r c)) as Hr.
    pose proof (Z.square_nonneg (g p - g c)) as Hg.
    pose proof (Z.square_nonneg (b p - b c)) as Hb.
    assert (Hr0 : (r p - r c) * (r p - r c) = 0) by lia.
    assert (Hg0 : (g p - g c) * (g p - g c) = 0) by lia.
    assert (Hb0 : (b p - b c) * (b p - b c) = 0) by lia.
    apply Z.mul_eq_0 in Hr0, Hg0, Hb0. lia.
  - intros (-> & -> & ->). rewrite !Z.sub_diag. reflexivity.
Qed.

Lemma ltb_asym x y :
  Double.nonneg x = true -> Double.nonneg y = true ->
  Double.ltb x y = true -> Double.ltb y x = false.
Proof.
  intros Hx Hy Hxy. destruct (Double.ltb y x) eqn:Hyx; [|reflexivity].
  rewrite <- (DoubleFacts.ltb_irrefl x). symmetry.
  apply (DoubleFacts.ltb_trans x y x); assumption.
Qed.

(** X1. A pixel whose colour is in the palette is quantised to an entry of
    exactly that colour, and to the first one: the returned index is the
    lowest index whose entry has the red, green and blue of the pixel. *)
Theorem palette_colour_first_index (palette : list SDL_Color)
    (color : SDL_Color) (j : nat) (p_j : SDL_Color) :
  (length palette <= 256)%nat ->
  Forall wf_color palette -> wf_color color ->
  palette !! j = Some p_j -> same_rgb p_j color ->
  exists k p_k,
    findClosestPaletteEntry palette color = Z.of_nat k /\
    palette !! k = Some p_k /\ same_rgb p_k color /\ (k <= j)%nat /\
    (forall i p_i, (i < k)%nat -> palette !! i = Some p_i ->
       ~ same_rgb p_i color).
Proof.
  intros Hlen Hwf Hc Hj Hsame.
  pose proof (lookup_lt_Some _ _ _ Hj) as Hjlt.
  destruct (findClosestPaletteEntry_spec palette color)
    as (k & p_k & Hres & Hk & Hmin & Hfirst); [lia|].
  assert (Hk0 : same_rgb p_k color).
  { apply exact_distance_zero.
    pose proof (exact_distance_nonneg p_k color) as Hnn.
    apply exact_distance_zero in Hsame.
    destruct (Z.eq_dec (exact_distance_100 p_k color) 0) as [E|E]; [exact E|].
    exfalso.
    assert (Hlt : Double.ltb (distance p_j color) (distance p_k color) = true).
    { apply distance_order_exact; try assumption; try lia;
        eapply Forall_lookup_1; eassumption. }
    rewrite (Hmin j p_j Hj) in Hlt. discriminate Hlt. }
  assert (Hbefore : forall i p_i, (i < k)%nat -> palette !! i = Some p_i ->
                      ~ same_rgb p_i color).
  { intros i p_i Hik Hi Hsi.
    pose proof (Hfirst i p_i Hi Hik) as Hlt.
    assert (Heq : distance p_i color = distance p_k color).
    { apply distance_same_rgb; [|split; [|split]; reflexivity].
      destruct Hsi as (? & ? & ?), Hk0 as (? & ? & ?).
      split; [|split]; congruence. }
    rewrite Heq, DoubleFacts.ltb_irrefl in Hlt. discriminate Hlt. }
  exists k, p_k. repeat split; try assumption; try apply Hk0.
  destruct (le_lt_dec k j) as [Hle|Hlt]; [exact Hle|].
  exfalso. exact (Hbefore j p_j Hlt Hj Hsame).
Qed.

Lemma palette_colour_first_index_witness :
  exists k,
    findClosestPaletteEntry sample_palette (mkColor 250 250 250 0) = Z.of_nat k /\
    (k <= 5)%nat.
Proof.
  destruct (palette_colour_first_index sample_palette (mkColor 250 250 250 0)
              5 (mkColor 250 250 250 255))
    as (k & p_k & Hres & Hk & _ & Hle & _).
  - vm_compute. lia.
  - exact sample_palette_wf.
  - unfold wf_color, is_u8; simpl; lia.
  - reflexivity.
  - split; [|split]; reflexivity.
  - exists k. split; [exact Hres | exact Hle].
Defined.

Lemma normal_below_infinity hi x :
  Double.normal hi x = true -> Double.ltb x Double.INFINITY = true.
Proof.
  destruct x as [[]| | |[] m e]; simpl; try discriminate; reflexivity.
Qed.

(** X2. For byte colours the computed distance is symmetric in its two
    arguments, is strictly below [INFINITY], the initial value of the
    search, and is zero exactly when the two colours have the same red,
    green and blue. *)
Theorem distance_symmetric_finite_zero (p_color color : SDL_Color) :
  wf_color p_color -> wf_color color ->
  distance p_color color = distance color p_color /\
  Double.ltb (distance p_color color) Double.INFINITY = true /\
  (distance p_color color = S754_zero false <-> same_rgb p_color color).
Proof.
  intros Hp Hc.
  destruct (distance_value p_color color Hp Hc) as [Hn Hv].
  split; [|split; [|split]].
  - unfold distance.
    replace ((r color - r p_color) * (r color - r p_color))
      with ((r p_color - r color) * (r p_color - r color)) by ring.
    replace ((g color - g p_color) * (g color - g p_color))
      with ((g p_color - g color) * (g p_color - g color)) by ring.
    replace ((b color - b p_color) * (b color - b p_color))
      with ((b p_color - b color) * (b p_color - b color)) by ring.
    reflexivity.
  - exact (normal_below_infinity _ _ Hn).
  - intros Hz. apply exact_distance_zero.
    rewrite Hz in Hv. change (Double.val (S754_zero false)) with 0 in Hv.
    pose proof (exact_distance_nonneg p_color color). lia.
  - intros (Hr & Hg & Hb). unfold distance.
    rewrite Hr, Hg, Hb, !Z.sub_diag. reflexivity.
Qed.

Lemma distance_symmetric_finite_zero_witness :
  distance (mkColor 1 2 3 0) (mkColor 200 100 50 0)
  = distance (mkColor 200 100 50 0) (mkColor 1 2 3 0).
Proof.
  apply (distance_symmetric_finite_zero (mkColor 1 2 3 0) (mkColor 200 100 50 0));
    unfold wf_color, is_u8; simpl; lia.
Defined.

(** X3. On byte colours rounding never inverts the exact order of two
    distances: an entry strictly nearer in exact arithmetic is strictly
    nearer for the program, and an entry the program finds strictly nearer is
    at least as near in exact arithmetic. *)
Theorem rounding_keeps_exact_order (p_color q_color color : SDL_Color) :
  wf_color p_color -> wf_color q_color -> wf_color color ->
  (exact_distance_100 p_color color < exact_distance_100 q_color color ->
   Double.ltb (distance p_color color) (distance q_color color) = true) /\
  (Double.ltb (distance p_color color) (distance q_color color) = true ->
   exact_distance_100 p_color color <= exact_distance_100 q_color color).
Proof.
  intros Hp Hq Hc. split.
  - apply distance_order_exact; assumption.
  - intros Hlt.
    destruct (Z.le_gt_cases (exact_distance_100 p_color color)
                (exact_distance_100 q_color color)) as [Hle|Hgt]; [exact Hle|].
    exfalso.
    assert (Hrev : Double.ltb (distance q_color color) (distance p_color color)
                   = true)
      by (apply distance_order_exact; try assumption; lia).
    rewrite (ltb_asym _ _ (distance_nonneg _ _) (distance_nonneg _ _) Hlt) in Hrev.
    discriminate Hrev.
Qed.

Lemma rounding_keeps_exact_order_witness :
  Double.ltb (distance (mkColor 10 10 10 0) (mkColor 12 10 10 0))
             (distance (mkColor 10 10 13 0) (mkColor 12 10 10 0)) = true.
Proof.
  apply (rounding_keeps_exact_order (mkColor 10 10 10 0) (mkColor 10 10 13 0)
           (mkColor 12 10 10 0));
    try (unfold wf_color, is_u8; simpl; lia).
  vm_compute. reflexivity.
Defined.

Lemma closest_loop_same_rgb color color' ps ps' :
  same_rgb color color' -> Forall2 same_rgb ps ps' ->
  forall i ci low,
    closest_loop color ps i ci low = closest_loop color' ps' i ci low.
Proof.
  intros Hc Hps. induction Hps as [|p p' ps ps' Hp _ IH]; intros i ci low.
  - reflexivity.
  - simpl. rewrite (distance_same_rgb p p' color color' Hp Hc), !IH. reflexivity.
Qed.

(** X4. The quantiser never looks at the alpha channel: a palette and a
    pixel that differ from another palette and pixel only in their fourth
    channel give the same index. *)
Theorem quantizer_ignores_alpha (palette palette' : list SDL_Color)
    (color color' : SDL_Color) :
  same_rgb color color' -> Forall2 same_rgb palette palette' ->
  findClosestPaletteEntry palette color = findClosestPaletteEntry palette' color'.
Proof.
  intros Hc Hps. unfold findClosestPaletteEntry.
  apply closest_loop_same_rgb; assumption.
Qed.

Lemma quantizer_ignores_alpha_witness :
  findClosestPaletteEntry [mkColor 0 0 0 255; mkColor 9 9 9 255] (mkColor 8 8 8 0)
  = findClosestPaletteEntry [mkColor 0 0 0 0; mkColor 9 9 9 7] (mkColor 8 8 8 255).
Proof.
  apply quantizer_ignores_alpha.
  - split; [|split]; reflexivity.
  - repeat constructor.
Defined.

Lemma closest_loop_u8 color ps : forall i ci low,
  is_u8 ci -> is_u8 (closest_loop color ps i ci low).
Proof.
  induction ps as [|p ps IH]; intros i ci low Hci; simpl; [exact Hci|].
  destruct (Double.ltb (distance p color) low); apply IH; [|exact Hci].
  unfold is_u8, u8. apply Z.mod_pos_bound. lia.
Qed.

Lemma findClosestPaletteEntry_u8 palette color :
  is_u8 (findClosestPaletteEntry palette color).
Proof. apply closest_loop_u8. unfold is_u8. lia. Qed.

(** X5. Whatever the palette and the colour, the index returned by the
    search is a byte; on an empty palette it is 0; on a palette of 1 to 256
    entries it is the index of an entry of the palette. *)
Theorem closest_index_in_range (palette : list SDL_Color) (color : SDL_Color) :
  is_u8 (findClosestPaletteEntry palette color) /\
  (palette = [] -> findClosestPaletteEntry palette color = 0) /\
  ((0 < length palette <= 256)%nat ->
   is_Some (palette !! Z.to_nat (findClosestPaletteEntry palette color))).
Proof.
  split; [apply findClosestPaletteEntry_u8|]. split.
  - intros ->. reflexivity.
  - intros Hlen.
    destruct (findClosestPaletteEntry_spec palette color Hlen)
      as (k & p_k & Hres & Hk & _).
    rewrite Hres, Nat2Z.id, Hk. eexists. reflexivity.
Qed.

(** * Further properties of the buffers *)

Lemma for_loop_store_Forall (P : Z -> Prop) (F : nat -> Z -> Z) n start buf :
  (forall i x, P (F i x)) -> Forall P buf ->
  Forall P (for_loop (fun i buf => <[i := F i (rd buf i)]> buf) start n buf).
Proof.
  intros HF Hbuf. apply Forall_lookup. intros j y Hj.
  rewrite for_loop_store_lookup in Hj.
  case_decide.
  - destruct (buf !! j) as [x|]; [|discriminate Hj].
    injection Hj as <-. apply HF.
  - eapply Forall_lookup_1; eassumption.
Qed.

Lemma convert_loop_u8 palette src n dest :
  Forall is_u8 dest -> Forall is_u8 (convert_loop palette src n dest).
Proof.
  intros H. unfold convert_loop.
  apply (for_loop_store_Forall is_u8 (fun i _ => convert_pixel palette src i));
    [|exact H].
  intros i _. apply findClosestPaletteEntry_u8.
Qed.

(** X6. Whatever it returns, [convertSurfaceToIndex] leaves the destination
    with its width, height, depth and buffer length, and a destination buffer
    of bytes stays a buffer of bytes. It returns 0 or 1; it returns 1 when
    either surface is null; and when it returns 1 the destination is
    untouched. *)
Theorem convert_keeps_destination_shape (palette : list SDL_Color)
    (env : SDL_Env) (source dest : option SDL_Surface) :
  let res := convertSurfaceToIndex palette env source dest in
  (conv_ret res = 0 \/ conv_ret res = 1) /\
  (source = None \/ dest = None -> conv_ret res = 1) /\
  (conv_ret res = 1 -> conv_dest res = dest) /\
  (forall d, dest = Some d ->
     exists d', conv_dest res = Some d' /\
       w d' = w d /\ h d' = h d /\ BitsPerPixel d' = BitsPerPixel d /\
       length (pixels d') = length (pixels d) /\
       (Forall is_u8 (pixels d) -> Forall is_u8 (pixels d'))).
Proof.
  cbv zeta.
  assert (Hfail : conv_ret (convertSurfaceToIndex palette env source dest) = 1 ->
                  conv_dest (convertSurfaceToIndex palette env source dest) = dest).
  { intros H1. apply convert_failure_keeps_dest. rewrite H1. discriminate. }
  split; [|split; [|split; [exact Hfail|]]].
  - unfold convertSurfaceToIndex.
    destruct source as [src|], dest as [dst|]; try (right; reflexivity).
    repeat match goal with
           | |- context [if ?c then _ else _] => destruct c
           end; simpl; auto.
  - unfold convertSurfaceToIndex.
    intros [->| ->]; [reflexivity|]. destruct source; reflexivity.
  - intros d ->. unfold convertSurfaceToIndex.
    destruct source as [src|]; [|exists d; simpl; auto 10].
    repeat match goal with
           | |- context [if ?c then _ else _] => destruct c
           end;
      try (exists d; simpl; auto 10; fail).
    eexists. split; [reflexivity|]. simpl.
    repeat split; try reflexivity.
    + apply convert_loop_length.
    + apply convert_loop_u8.
Qed.

Lemma create_index8_surface_ok width height :
  surface_ok (create_index8_surface width height).
Proof.
  unfold surface_ok, index8_surface, create_index8_surface, pixel_count; simpl.
  split; [split; [reflexivity | apply length_replicate]|].
  apply Forall_replicate. unfold is_u8. lia.
Qed.

Lemma convert_dest_ok palette env source d :
  surface_ok d ->
  exists d', conv_dest (convertSurfaceToIndex palette env source (Some d)) = Some d'
             /\ surface_ok d'.
Proof.
  intros Hd. unfold convertSurfaceToIndex.
  destruct source as [src|]; [|exists d; split; [reflexivity | exact Hd]].
  repeat match goal with
         | |- context [if ?c then _ else _] => destruct c
         end;
    try (exists d; split; [reflexivity | exact Hd]).
  eexists. split; [reflexivity|].
  destruct Hd as [[Hbpp Hlen] Hu8].
  unfold surface_ok, index8_surface, pixel_count in *; simpl.
  rewrite convert_loop_length. split; [split; assumption|].
  apply convert_loop_u8, Hu8.
Qed.


Lemma darken_pixel_u8 level v :
  0 <= level <= 8 -> is_u8 v -> is_u8 (darken_pixel level v).
Proof.
  intros Hl Hv. rewrite darken_pixel_cases by assumption.
  unfold is_u8 in *. case_decide; lia.
Qed.








(** * Further properties of the brightness mapper and the tint toggler *)

(** X8. With an image loaded, at darkness level 0 the lit buffer computed by
    [updateDarkLevel] is the base buffer itself, and at level 8 it is 255
    everywhere. *)
Theorem darkness_level_extremes (s : State) (base : SDL_Surface) :
  render_surface s = Some base ->
  length (pixels base) = Z.to_nat (pixel_count base) ->
  Forall is_u8 (pixels base) ->
  (darkLevel s = 0 ->
   pixels <$> lit_surface (updateDarkLevel s) = Some (pixels base)) /\
  (darkLevel s = 8 ->
   pixels <$> lit_surface (updateDarkLevel s)
   = Some (replicate (length (pixels base)) 255)).
Proof.
  intros Hrs Hlen Hu8. rewrite (updateDarkLevel_lit s base Hrs Hlen). simpl.
  split; intros ->; f_equal.
  - rewrite <- (list_fmap_id (pixels base)) at 2.
    apply Forall_fmap_ext_1. eapply Forall_impl; [exact Hu8|].
    intros v Hv. rewrite darken_pixel_cases by (assumption || lia).
    unfold is_u8 in Hv. case_decide; simpl; lia.
  - apply list_eq. intros j. rewrite list_lookup_fmap.
    destruct (pixels base !! j) as [x|] eqn:E; simpl.
    + rewrite lookup_replicate_2 by (eapply lookup_lt_Some, E). reflexivity.
    + symmetry. apply lookup_ge_None. rewrite length_replicate.
      apply lookup_ge_None, E.
Qed.

Lemma darkness_level_extremes_witness :
  pixels <$> lit_surface
     (updateDarkLevel
        (mkState (Some (mkSurface 2 1 8 [7; 200])) None None false 8 false 0))
  = Some [255; 255].
Proof.
  apply (darkness_level_extremes
           (mkState (Some (mkSurface 2 1 8 [7; 200])) None None false 8 false 0)
           (mkSurface 2 1 8 [7; 200])).
  - reflexivity.
  - reflexivity.
  - repeat constructor; unfold is_u8; lia.
  - reflexivity.
Defined.

(** X9. Darkening composes: darkening a byte at level [a] and the result at
    level [c] gives what darkening at level [a + c] gives, as long as
    [a + c] is at most 8. *)
Theorem darken_levels_add (v a c : Z) :
  is_u8 v -> 0 <= a -> 0 <= c -> a + c <= 8 ->
  darken_pixel c (darken_pixel a v) = darken_pixel (a + c) v.
Proof.
  intros Hv Ha Hc Hac.
  assert (Hav : is_u8 (darken_pixel a v)) by (apply darken_pixel_u8; [lia | exact Hv]).
  rewrite (darken_pixel_cases c (darken_pixel a v)) by (assumption || lia).
  rewrite (darken_pixel_cases a v) by (assumption || lia).
  rewrite (darken_pixel_cases (a + c) v) by (assumption || lia).
  unfold is_u8 in Hv. repeat case_decide; lia.
Qed.

Lemma darken_levels_add_witness :
  darken_pixel 3 (darken_pixel 2 100) = darken_pixel (2 + 3) 100.
Proof.
  apply (darken_levels_add 100 2 3); unfold is_u8; lia.
Defined.

Lemma tint_darken_table :
  forallb (fun level =>
    forallb (fun v =>
      (tint_pixel true (darken_pixel level v)
       =? darken_pixel level (tint_pixel true v))
      && (Z.lor v 16 / 32 =? v / 32)
      && (Z.lor v 16 =? (if Z.testbit v 4 then v else v + 16)))
      (seqZ 0 256))
    (seqZ 0 9) = true.
Proof. vm_compute. reflexivity. Qed.

(** X10. The two stages commute on bytes: tinting a darkened value gives
    the same byte as darkening the tinted value, at every level in [0, 8].
    Tinting adds 16 to a value whose bit 4 is clear and leaves the others,
    so it never moves a value out of its band of 32 indices. *)
Theorem tint_commutes_with_darken (flag : bool) (level v : Z) :
  is_u8 v -> 0 <= level <= 8 ->
  tint_pixel flag (darken_pixel level v) = darken_pixel level (tint_pixel flag v)
  /\ tint_pixel flag v / 32 = v / 32
  /\ tint_pixel true v = (if Z.testbit v 4 then v else v + 16).
Proof.
  intros Hv Hl.
  pose proof (seqZ_forallb _ _ _ tint_darken_table level ltac:(lia)) as H.
  cbv beta in H.
  pose proof (seqZ_forallb _ _ _ H v ltac:(unfold is_u8 in Hv; lia)) as H'.
  cbv beta in H'. rewrite !andb_true_iff, !Z.eqb_eq in H'.
  destruct H' as [[H1 H2] H3].
  assert (Ht : tint_pixel true v = Z.lor v 16) by (apply tint_pixel_true, Hv).
  destruct flag.
  - split; [exact H1|]. split; [rewrite Ht; exact H2 | rewrite Ht; exact H3].
  - split; [reflexivity|]. split; [reflexivity | rewrite Ht; exact H3].
Qed.

Lemma tint_commutes_with_darken_witness :
  tint_pixel true (darken_pixel 3 70) = darken_pixel 3 (tint_pixel true 70).
Proof.
  apply (tint_commutes_with_darken true 3 70); unfold is_u8; lia.
Defined.

(** * Further properties of the event handler *)

Lemma update_pair_shows s base :
  render_surface s = Some base ->
  length (pixels base) = Z.to_nat (pixel_count base) ->
  exists s',
    updateUnderwater (updateDarkLevel s) = Some s' /\
    shows_pipeline s' /\ render_surface s' = Some base /\
    darkLevel s' = darkLevel s /\ underWater s' = underWater s /\
    exitRequested s' = exitRequested s /\ error_dialogs s' = error_dialogs s.
Proof.
  intros Hrs Hlen. rewrite (update_pair_lit s base Hrs Hlen). cbv zeta.
  eexists. split; [reflexivity|]. simpl.
  split; [|repeat split; exact Hrs].
  exists base. simpl. repeat split; try assumption; reflexivity.
Qed.

(** X11. For every arrow-key event with an image loaded, the level moves by
    one step unless it is already at its bound (0 for the up key, 8 for the
    down key); the lit buffer is then the base buffer darkened at the new
    level and tinted under the unchanged flag, and the displayed texture is
    that buffer. The base buffer is not touched. *)
Theorem arrow_key_recomputes_lit (palette : list SDL_Color) (s : State)
    (base : SDL_Surface) :
  render_surface s = Some base ->
  length (pixels base) = Z.to_nat (pixel_count base) ->
  (exists s',
     handleEvent palette (SDL_KEYDOWN SDL_SCANCODE_UP) s = Some s' /\
     darkLevel s' = (if darkLevel s >? 0 then darkLevel s - 1 else darkLevel s) /\
     underWater s' = underWater s /\ render_surface s' = Some base /\
     shows_pipeline s') /\
  (exists s',
     handleEvent palette (SDL_KEYDOWN SDL_SCANCODE_DOWN) s = Some s' /\
     darkLevel s' = (if darkLevel s <? 8 then darkLevel s + 1 else darkLevel s) /\
     underWater s' = underWater s /\ render_surface s' = Some base /\
     shows_pipeline s').
Proof.
  intros Hrs Hlen. split; simpl.
  - destruct (update_pair_shows
                (if darkLevel s >? 0 then set_darkLevel (darkLevel s - 1) s else s)
                base)
      as (s' & Hs' & Hshow & Hbase & Hd & Hu & _).
    + destruct (darkLevel s >? 0); exact Hrs.
    + exact Hlen.
    + exists s'. split; [exact Hs'|]. rewrite Hd, Hu.
      destruct (darkLevel s >? 0); simpl; auto.
  - destruct (update_pair_shows
                (if darkLevel s <? 8 then set_darkLevel (darkLevel s + 1) s else s)
                base)
      as (s' & Hs' & Hshow & Hbase & Hd & Hu & _).
    + destruct (darkLevel s <? 8); exact Hrs.
    + exact Hlen.
    + exists s'. split; [exact Hs'|]. rewrite Hd, Hu.
      destruct (darkLevel s <? 8); simpl; auto.
Qed.

Lemma arrow_key_recomputes_lit_witness :
  exists s',
    handleEvent sample_palette (SDL_KEYDOWN SDL_SCANCODE_DOWN)
      (mkState (Some (mkSurface 1 1 8 [5])) None None false 1 false 0) = Some s' /\
    shows_pipeline s'.
Proof.
  destruct (arrow_key_recomputes_lit sample_palette
              (mkState (Some (mkSurface 1 1 8 [5])) None None false 1 false 0)
              (mkSurface 1 1 8 [5]))
    as [_ (s' & Hs' & _ & _ & _ & Hshow)].
  - reflexivity.
  - reflexivity.
  - exists s'. split; [exact Hs' | exact Hshow].
Defined.

Lemma handleEvent_total palette event s :
  exists s', handleEvent palette event s = Some s'.
Proof.
  destruct event as [|temp env|[]|];
    try (rewrite handleEvent_drop); try (eexists; reflexivity); simpl.
  - destruct (update_pair_total
      (if darkLevel s >? 0 then set_darkLevel (darkLevel s - 1) s else s))
      as (s' & Hs' & _). eauto.
  - destruct (update_pair_total
      (if darkLevel s <? 8 then set_darkLevel (darkLevel s + 1) s else s))
      as (s' & Hs' & _). eauto.
  - destruct (update_pair_total (set_underWater (negb (underWater s)) s))
      as (s' & Hs' & _). eauto.
Qed.

Lemma update_pair_no_image s :
  render_surface s = None -> updateUnderwater (updateDarkLevel s) = Some s.
Proof.
  intros H. unfold updateDarkLevel. rewrite H. unfold updateUnderwater.
  rewrite H. reflexivity.
Qed.

(** X12. Only a drop event changes the base buffer: every other event
    leaves the base buffer and the count of error dialogs as they are, and
    among them only the quit event changes [exitRequested]. With no image
    loaded, a key
    event allocates nothing: the lit buffer and the displayed texture stay as
    they are, and only the level or the flag moves. *)
Theorem only_drop_changes_base (palette : list SDL_Color) (event : SDL_Event)
    (s : State) :
  (forall temp env, event <> SDL_DROPFILE temp env) ->
  exists s',
    handleEvent palette event s = Some s' /\
    render_surface s' = render_surface s /\
    error_dialogs s' = error_dialogs s /\
    (event <> SDL_QUIT -> exitRequested s' = exitRequested s) /\
    (render_surface s = None ->
     lit_surface s' = lit_surface s /\ render_texture s' = render_texture s).
Proof.
  intros Hnd. destruct event as [|temp env|[]|].
  - eexists. split; [reflexivity|]. simpl. repeat split; congruence.
  - exfalso. exact (Hnd temp env eq_refl).
  - simpl. destruct (update_pair_total
      (if darkLevel s >? 0 then set_darkLevel (darkLevel s - 1) s else s))
      as (s' & Hs' & _ & _ & Hr & He & Hn).
    exists s'. split; [exact Hs'|]. rewrite Hr, He, Hn.
    split; [destruct (darkLevel s >? 0); reflexivity|].
    split; [destruct (darkLevel s >? 0); reflexivity|].
    split; [intros _; destruct (darkLevel s >? 0); reflexivity|].
    intros Hnone. rewrite update_pair_no_image in Hs'
      by (destruct (darkLevel s >? 0); exact Hnone).
    injection Hs' as <-. destruct (darkLevel s >? 0); split; reflexivity.
  - simpl. destruct (update_pair_total
      (if darkLevel s <? 8 then set_darkLevel (darkLevel s + 1) s else s))
      as (s' & Hs' & _ & _ & Hr & He & Hn).
    exists s'. split; [exact Hs'|]. rewrite Hr, He, Hn.
    split; [destruct (darkLevel s <? 8); reflexivity|].
    split; [destruct (darkLevel s <? 8); reflexivity|].
    split; [intros _; destruct (darkLevel s <? 8); reflexivity|].
    intros Hnone. rewrite update_pair_no_image in Hs'
      by (destruct (darkLevel s <? 8); exact Hnone).
    injection Hs' as <-. destruct (darkLevel s <? 8); split; reflexivity.
  - simpl. destruct (update_pair_total (set_underWater (negb (underWater s)) s))
      as (s' & Hs' & _ & _ & Hr & He & Hn).
    exists s'. split; [exact Hs'|]. rewrite Hr, He, Hn.
    do 3 (split; [reflexivity|]).
    intros Hnone. rewrite update_pair_no_image in Hs' by exact Hnone.
    injection Hs' as <-. split; reflexivity.
  - exists s. repeat split; reflexivity.
  - exists s. repeat split; reflexivity.
Qed.

Lemma only_drop_changes_base_witness :
  exists s',
    handleEvent sample_palette (SDL_KEYDOWN SDL_SCANCODE_DOWN) initial_state
    = Some s' /\
    render_surface s' = None.
Proof.
  destruct (only_drop_changes_base sample_palette
              (SDL_KEYDOWN SDL_SCANCODE_DOWN) initial_state)
    as (s' & Hs' & Hr & _).
  - intros temp env. discriminate.
  - exists s'. split; [exact Hs' | exact Hr].
Defined.

Lemma key_down_level palette s :
  exists s', handleEvent palette (SDL_KEYDOWN SDL_SCANCODE_DOWN) s = Some s' /\
    darkLevel s' = (if darkLevel s <? 8 then darkLevel s + 1 else darkLevel s).
Proof.
  simpl. destruct (update_pair_total
      (if darkLevel s <? 8 then set_darkLevel (darkLevel s + 1) s else s))
      as (s' & Hs' & Hd & _).
  exists s'. split; [exact Hs'|]. rewrite Hd.
  destruct (darkLevel s <? 8); reflexivity.
Qed.

Lemma key_up_level palette s :
  exists s', handleEvent palette (SDL_KEYDOWN SDL_SCANCODE_UP) s = Some s' /\
    darkLevel s' = (if darkLevel s >? 0 then darkLevel s - 1 else darkLevel s).
Proof.
  simpl. destruct (update_pair_total
      (if darkLevel s >? 0 then set_darkLevel (darkLevel s - 1) s else s))
      as (s' & Hs' & Hd & _).
  exists s'. split; [exact Hs'|]. rewrite Hd.
  destruct (darkLevel s >? 0); reflexivity.
Qed.

(** X13. Repeated key presses saturate: from a level in [0, 8], [n] presses
    of the down key leave the level at [min 8 (level + n)] and [n] presses of
    the up key leave it at [max 0 (level - n)]. *)
Theorem repeated_presses_saturate (palette : list SDL_Color) (n : nat)
    (s : State) :
  0 <= darkLevel s <= 8 ->
  (exists s',
     handleEvents palette (replicate n (SDL_KEYDOWN SDL_SCANCODE_DOWN)) s
     = Some s' /\
     darkLevel s' = Z.min 8 (darkLevel s + Z.of_nat n)) /\
  (exists s',
     handleEvents palette (replicate n (SDL_KEYDOWN SDL_SCANCODE_UP)) s
     = Some s' /\
     darkLevel s' = Z.max 0 (darkLevel s - Z.of_nat n)).
Proof.
  revert s. induction n as [|n IH]; intros s Hl.
  - split; exists s; (split; [reflexivity | lia]).
  - split; cbn [replicate handleEvents].
    + destruct (key_down_level palette s) as (s1 & -> & Hd1).
      assert (Hl1 : 0 <= darkLevel s1 <= 8)
        by (rewrite Hd1; destruct (darkLevel s <? 8) eqn:E; lia).
      destruct (IH s1 Hl1) as [(s' & Hs' & Hd') _].
      exists s'. split; [exact Hs'|]. rewrite Hd', Hd1.
      destruct (darkLevel s <? 8) eqn:E; lia.
    + destruct (key_up_level palette s) as (s1 & -> & Hd1).
      assert (Hl1 : 0 <= darkLevel s1 <= 8)
        by (rewrite Hd1; destruct (darkLevel s >? 0) eqn:E; lia).
      destruct (IH s1 Hl1) as [_ (s' & Hs' & Hd')].
      exists s'. split; [exact Hs'|]. rewrite Hd', Hd1.
      destruct (darkLevel s >? 0) eqn:E; lia.
Qed.

Lemma repeated_presses_saturate_witness :
  exists s',
    handleEvents sample_palette (replicate 11 (SDL_KEYDOWN SDL_SCANCODE_DOWN))
      initial_state = Some s' /\
    darkLevel s' = 8.
Proof.
  destruct (repeated_presses_saturate sample_palette 11 initial_state)
    as [(s' & Hs' & Hd) _].
  - simpl. lia.
  - exists s'. split; [exact Hs' | exact Hd].
Defined.

(** X14. Toggling twice is the identity: in a state whose lit buffer and
    displayed texture are the base buffer darkened at the current level and
    tinted under the current flag (the state every key press leaves), two
    presses of the space key give back exactly that state, so switching the
    tint off does remove it. *)
Theorem toggle_twice_restores (palette : list SDL_Color) (s : State) :
  shows_pipeline s ->
  handleEvents palette
    [SDL_KEYDOWN SDL_SCANCODE_SPACE; SDL_KEYDOWN SDL_SCANCODE_SPACE] s
  = Some s.
Proof.
  intros (base & Hrs & Hlen & Hlit & Htex).
  cbn [handleEvents handleEvent].
  rewrite (update_pair_lit (set_underWater (negb (underWater s)) s) base Hrs Hlen).
  cbv zeta. cbn [handleEvents handleEvent].
  rewrite (update_pair_lit _ base) by (simpl; assumption).
  cbv zeta. f_equal.
  destruct s as [rs lit tex ex lv fl n]; simpl in *.
  unfold set_render_texture, set_lit_surface, set_underWater; simpl.
  rewrite negb_involutive.
  unfold lit_of in Hlit, Htex. rewrite Hrs, Hlit, Htex. reflexivity.
Qed.

Lemma toggle_twice_restores_witness :
  handleEvents sample_palette
    [SDL_KEYDOWN SDL_SCANCODE_SPACE; SDL_KEYDOWN SDL_SCANCODE_SPACE]
    (mkState (Some (mkSurface 1 1 8 [3])) (Some (mkSurface 1 1 8 [51]))
             (Some (mkTexture 1 1 [51])) false 1 true 0)
  = Some (mkState (Some (mkSurface 1 1 8 [3])) (Some (mkSurface 1 1 8 [51]))
                  (Some (mkTexture 1 1 [51])) false 1 true 0).
Proof.
  apply toggle_twice_restores.
  exists (mkSurface 1 1 8 [3]). repeat split; reflexivity.
Defined.

(** X15. The two arrow keys undo each other away from the bounds: in a
    state that shows the pipeline, down then up gives back the same state
    when the level is in [0, 7], and up then down gives it back when the
    level is in [1, 8]. At the bounds they do not: from level 8, down then up
    ends at level 7. *)
Theorem arrow_keys_undo_each_other (palette : list SDL_Color) (s : State) :
  shows_pipeline s ->
  (0 <= darkLevel s < 8 ->
   handleEvents palette
     [SDL_KEYDOWN SDL_SCANCODE_DOWN; SDL_KEYDOWN SDL_SCANCODE_UP] s = Some s) /\
  (0 < darkLevel s <= 8 ->
   handleEvents palette
     [SDL_KEYDOWN SDL_SCANCODE_UP; SDL_KEYDOWN SDL_SCANCODE_DOWN] s = Some s) /\
  (darkLevel s = 8 ->
   darkLevel <$> handleEvents palette
     [SDL_KEYDOWN SDL_SCANCODE_DOWN; SDL_KEYDOWN SDL_SCANCODE_UP] s = Some 7).
Proof.
  intros (base & Hrs & Hlen & Hlit & Htex).
  split; [|split]; intros Hl; cbn [handleEvents handleEvent].
  - replace (darkLevel s <? 8) with true by (symmetry; apply Z.ltb_lt; lia).
    rewrite (update_pair_lit (set_darkLevel (darkLevel s + 1) s) base Hrs Hlen).
    cbv zeta. cbn [handleEvents handleEvent darkLevel set_darkLevel
                   set_render_texture set_lit_surface].
    replace (darkLevel s + 1 >? 0) with true by (symmetry; apply Z.gtb_lt; lia).
    rewrite (update_pair_lit _ base) by (simpl; assumption).
    cbv zeta. f_equal.
    destruct s as [rs lit tex ex lv fl n]; simpl in *.
    unfold set_render_texture, set_lit_surface, set_darkLevel; simpl.
    replace (lv + 1 - 1) with lv by lia.
    unfold lit_of in Hlit, Htex. rewrite Hrs, Hlit, Htex. reflexivity.
  - replace (darkLevel s >? 0) with true by (symmetry; apply Z.gtb_lt; lia).
    rewrite (update_pair_lit (set_darkLevel (darkLevel s - 1) s) base Hrs Hlen).
    cbv zeta. cbn [handleEvents handleEvent darkLevel set_darkLevel
                   set_render_texture set_lit_surface].
    replace (darkLevel s - 1 <? 8) with true by (symmetry; apply Z.ltb_lt; lia).
    rewrite (update_pair_lit _ base) by (simpl; assumption).
    cbv zeta. f_equal.
    destruct s as [rs lit tex ex lv fl n]; simpl in *.
    unfold set_render_texture, set_lit_surface, set_darkLevel; simpl.
    replace (lv - 1 + 1) with lv by lia.
    unfold lit_of in Hlit, Htex. rewrite Hrs, Hlit, Htex. reflexivity.
  - rewrite Hl. cbn [Z.ltb Z.compare Pos.compare Pos.compare_cont].
    rewrite (update_pair_lit s base Hrs Hlen).
    cbv zeta. cbn [handleEvents handleEvent darkLevel set_darkLevel
                   set_render_texture set_lit_surface].
    rewrite Hl. cbn [Z.gtb Z.compare].
    rewrite (update_pair_lit _ base) by (simpl; assumption).
    reflexivity.
Qed.

Lemma arrow_keys_undo_each_other_witness :
  handleEvents sample_palette
    [SDL_KEYDOWN SDL_SCANCODE_DOWN; SDL_KEYDOWN SDL_SCANCODE_UP]
    (mkState (Some (mkSurface 1 1 8 [3])) (Some (mkSurface 1 1 8 [35]))
             (Some (mkTexture 1 1 [35])) false 1 false 0)
  = Some (mkState (Some (mkSurface 1 1 8 [3])) (Some (mkSurface 1 1 8 [35]))
                  (Some (mkTexture 1 1 [35])) false 1 false 0).
Proof.
  apply arrow_keys_undo_each_other.
  - exists (mkSurface 1 1 8 [3]). repeat split; reflexivity.
  - simpl. lia.
Defined.

Lemma handleEvent_exit_sticky palette event s s' :
  handleEvent palette event s = Some s' ->
  exitRequested s = true -> exitRequested s' = true.
Proof.
  intros Hs' He. destruct event as [|temp env|[]|].
  - injection Hs' as <-. reflexivity.
  - rewrite handleEvent_drop in Hs'. injection Hs' as <-.
    destruct (loadNewBMP_frame palette env temp s) as (_ & _ & _ & Hex & _).
    destruct (negb _); simpl; rewrite Hex; exact He.
  - simpl in Hs'.
    destruct (update_pair_total
      (if darkLevel s >? 0 then set_darkLevel (darkLevel s - 1) s else s))
      as (s1 & Hs1 & _ & _ & _ & Hex & _).
    rewrite Hs1 in Hs'. injection Hs' as <-. rewrite Hex.
    destruct (darkLevel s >? 0); exact He.
  - simpl in Hs'.
    destruct (update_pair_total
      (if darkLevel s <? 8 then set_darkLevel (darkLevel s + 1) s else s))
      as (s1 & Hs1 & _ & _ & _ & Hex & _).
    rewrite Hs1 in Hs'. injection Hs' as <-. rewrite Hex.
    destruct (darkLevel s <? 8); exact He.
  - simpl in Hs'.
    destruct (update_pair_total (set_underWater (negb (underWater s)) s))
      as (s1 & Hs1 & _ & _ & _ & Hex & _).
    rewrite Hs1 in Hs'. injection Hs' as <-. rewrite Hex. exact He.
  - injection Hs' as <-. exact He.
  - injection Hs' as <-. exact He.
Qed.

Lemma handleEvents_total palette events : forall s,
  exists s', handleEvents palette events s = Some s'.
Proof.
  induction events as [|event events IH]; intros s; simpl; [eauto|].
  destruct (handleEvent_total palette event s) as (s1 & ->). apply IH.
Qed.

Lemma handleEvents_exit_sticky palette events : forall s s',
  handleEvents palette events s = Some s' ->
  exitRequested s = true -> exitRequested s' = true.
Proof.
  induction events as [|event events IH]; intros s s' Hs' He; simpl in Hs'.
  - injection Hs' as <-. exact He.
  - destruct (handleEvent palette event s) as [s1|] eqn:E; [|discriminate].
    eapply IH; [exact Hs'|]. eapply handleEvent_exit_sticky; eassumption.
Qed.

Lemma handleEvents_quit palette events : forall s s',
  SDL_QUIT ∈ events ->
  handleEvents palette events s = Some s' -> exitRequested s' = true.
Proof.
  induction events as [|event events IH]; intros s s' Hin Hs'.
  - inversion Hin.
  - simpl in Hs'.
    destruct (handleEvent palette event s) as [s1|] eqn:E; [|discriminate].
    apply elem_of_cons in Hin as [<-|Hin].
    + injection E as <-.
      eapply handleEvents_exit_sticky; [exact Hs' | reflexivity].
    + eapply IH; eassumption.
Qed.

Lemma main_loop_exited palette frames s :
  exitRequested s = true -> main_loop palette frames s = Some s.
Proof. intros H. destruct frames; simpl; rewrite H; reflexivity. Qed.

(** X16. A quit request ends the main loop at the end of the frame in which
    it arrives: the events queued in that frame, also those after the quit,
    are all handled, [exitRequested] is then set and no event resets it, and
    no later frame is processed. *)
Theorem quit_ends_loop_after_frame (palette : list SDL_Color)
    (events : list SDL_Event) (frames : list (list SDL_Event)) (s : State) :
  exitRequested s = false ->
  SDL_QUIT ∈ events ->
  exists s',
    handleEvents palette events s = Some s' /\
    exitRequested s' = true /\
    main_loop palette (events :: frames) s = Some s'.
Proof.
  intros Hrun Hin.
  destruct (handleEvents_total palette events s) as (s' & Hs').
  pose proof (handleEvents_quit palette events s s' Hin Hs') as Hex.
  exists s'. split; [exact Hs'|]. split; [exact Hex|].
  simpl. rewrite Hrun, Hs'. apply main_loop_exited, Hex.
Qed.

Lemma quit_ends_loop_after_frame_witness :
  exists s',
    main_loop sample_palette
      [[SDL_QUIT; SDL_KEYDOWN SDL_SCANCODE_DOWN]; [SDL_KEYDOWN SDL_SCANCODE_DOWN]]
      initial_state = Some s' /\
    exitRequested s' = true.
Proof.
  destruct (quit_ends_loop_after_frame sample_palette
              [SDL_QUIT; SDL_KEYDOWN SDL_SCANCODE_DOWN]
              [[SDL_KEYDOWN SDL_SCANCODE_DOWN]] initial_state)
    as (s' & _ & Hex & Hloop).
  - reflexivity.
  - apply elem_of_cons; left; reflexivity.
  - exists s'. split; [exact Hloop | exact Hex].
Defined.








(** * Further properties of loading *)

Lemma convert_blank_ret palette env surface :
  conv_ret (convertSurfaceToIndex palette env (Some surface)
              (Some (create_index8_surface (w surface) (h surface))))
  = if (BitsPerPixel surface =? 24) && lock_source_ok env && lock_dest_ok env
    then 0 else 1.
Proof.
  unfold convertSurfaceToIndex.
  destruct (BitsPerPixel surface =? 24); [|reflexivity].
  cbn [negb BitsPerPixel create_index8_surface Z.eqb Pos.eqb andb].
  replace (pixel_count (mkSurface (w surface) (h surface) 8
             (replicate (Z.to_nat (w surface * h surface)) 0)))
    with (pixel_count surface) by reflexivity.
  rewrite Z.eqb_refl. cbn [negb].
  destruct (lock_source_ok env); [|reflexivity].
  destruct (lock_dest_ok env); reflexivity.
Qed.

Lemma loadNewBMP_ret palette env temp s :
  fst (loadNewBMP palette env temp s) = if load_ok temp env then 0 else 1.
Proof.
  destruct temp as [surface|]; [|reflexivity]. simpl. unfold renderNewSurface.
  destruct (create_surface_ok env);
    [|rewrite !andb_false_r; try reflexivity;
      destruct (BitsPerPixel surface =? 24); reflexivity].
  destruct (set_palette_ok env);
    [|destruct (BitsPerPixel surface =? 24); reflexivity].
  cbn [negb render_surface set_render_surface].
  rewrite convert_blank_ret.
  destruct (BitsPerPixel surface =? 24) eqn:Hbpp; [|reflexivity].
  destruct (lock_source_ok env); [|reflexivity].
  destruct (lock_dest_ok env); [|reflexivity].
  cbn [andb negb Z.eqb].
  destruct (convert_dest_ok palette env (Some surface) _
              (create_index8_surface_ok (w surface) (h surface)))
    as (d' & -> & _).
  destruct (create_texture_ok env); [|reflexivity].
  cbn [render_texture set_render_texture render_surface set_render_surface
       fmap option_fmap option_map].
  destruct (set_logical_size_ok env); [|reflexivity].
  destruct (render_copy_ok env); reflexivity.
Qed.

(** X19. A load returns 0 exactly when the dropped file decodes to a 24-bit
    surface and each of the seven library calls it makes succeeds; in every
    other case it returns 1. The outcome does not depend on the state of the
    program, on the palette, or on the size or content of the image. *)
Theorem load_succeeds_iff (palette : list SDL_Color) (env : SDL_Env)
    (temp : option SDL_Surface) (s : State) :
  (fst (loadNewBMP palette env temp s) = 0 <-> load_ok temp env = true) /\
  (fst (loadNewBMP palette env temp s) = 1 <-> load_ok temp env = false).
Proof.
  rewrite loadNewBMP_ret. destruct (load_ok temp env); split; split;
    intros H; try reflexivity; discriminate H.
Qed.

Lemma handleEvent_error_dialogs palette event s s' :
  handleEvent palette event s = Some s' ->
  error_dialogs s'
  = (error_dialogs s + (if failed_drop event then 1 else 0))%nat.
Proof.
  intros Hs'. destruct event as [|temp env|sc|].
  - injection Hs' as <-. simpl. lia.
  - rewrite handleEvent_drop, loadNewBMP_ret in Hs'. injection Hs' as <-.
    destruct (loadNewBMP_frame palette env temp s) as (_ & _ & _ & _ & Hn).
    simpl. destruct (load_ok temp env); simpl; rewrite Hn; lia.
  - destruct sc; simpl in Hs'.
    + destruct (update_pair_total
        (if darkLevel s >? 0 then set_darkLevel (darkLevel s - 1) s else s))
        as (s1 & Hs1 & _ & _ & _ & _ & Hn).
      rewrite Hs1 in Hs'. injection Hs' as <-. rewrite Hn.
      destruct (darkLevel s >? 0); simpl; lia.
    + destruct (update_pair_total
        (if darkLevel s <? 8 then set_darkLevel (darkLevel s + 1) s else s))
        as (s1 & Hs1 & _ & _ & _ & _ & Hn).
      rewrite Hs1 in Hs'. injection Hs' as <-. rewrite Hn.
      destruct (darkLevel s <? 8); simpl; lia.
    + destruct (update_pair_total (set_underWater (negb (underWater s)) s))
        as (s1 & Hs1 & _ & _ & _ & _ & Hn).
      rewrite Hs1 in Hs'. injection Hs' as <-. rewrite Hn. simpl. lia.
    + injection Hs' as <-. simpl. lia.
  - injection Hs' as <-. simpl. lia.
Qed.

(** X20. The program shows one error dialog for each drop event whose load
    fails and none for any other event: after a sequence of events the
    number of dialogs shown has grown by the number of failed drops in it. *)
Theorem one_dialog_per_failed_drop (palette : list SDL_Color)
    (events : list SDL_Event) (s : State) :
  exists s',
    handleEvents palette events s = Some s' /\
    error_dialogs s'
    = (error_dialogs s + length (filter (fun e => failed_drop e = true) events))%nat.
Proof.
  revert s. induction events as [|event events IH]; intros s.
  - exists s. split; [reflexivity | simpl; lia].
  - cbn [handleEvents].
    destruct (handleEvent_total palette event s) as (s1 & Hs1). rewrite Hs1.
    destruct (IH s1) as (s' & Hs' & Hn). exists s'. split; [exact Hs'|].
    rewrite Hn, (handleEvent_error_dialogs palette event s s1 Hs1).
    rewrite filter_cons.
    destruct (decide (failed_drop event = true)) as [E|E].
    + rewrite E. simpl. lia.
    + apply not_true_is_false in E. rewrite E. simpl. lia.
Qed.

Lemma convert_blank_result palette env surface :
  BitsPerPixel surface = 24 ->
  lock_source_ok env = true -> lock_dest_ok env = true ->
  convertSurfaceToIndex palette env (Some surface)
    (Some (create_index8_surface (w surface) (h surface)))
  = mkConvertResult 0 None (Some (quantized_surface palette surface)).
Proof.
  intros Hbpp Hls Hld. unfold convertSurfaceToIndex.
  rewrite Hbpp, Hls, Hld.
  cbn [negb BitsPerPixel create_index8_surface Z.eqb Pos.eqb].
  replace (pixel_count (mkSurface (w surface) (h surface) 8
             (replicate (Z.to_nat (w surface * h surface)) 0)))
    with (pixel_count surface) by reflexivity.
  rewrite Z.eqb_refl. reflexivity.
Qed.

Lemma convert_blank_locked palette env surface :
  lock_source_ok env && lock_dest_ok env = false ->
  conv_ret (convertSurfaceToIndex palette env (Some surface)
              (Some (create_index8_surface (w surface) (h surface)))) <> 0.
Proof.
  intros Hlock. rewrite convert_blank_ret.
  destruct (BitsPerPixel surface =? 24); [|discriminate].
  simpl. rewrite Hlock. discriminate.
Qed.

(** X21. What a failed load of a 24-bit image leaves behind depends on the
    call that fails. If the new index surface cannot be allocated, the base
    buffer is lost (null) and the display is unchanged. If the palette
    cannot be set or a surface cannot be locked, the base buffer is the new
    zero-filled surface and the display is unchanged. If the texture cannot
    be created, the base buffer is the quantised image and the displayed
    texture is lost (null). Once the texture is created, the base buffer and
    the displayed texture are those of the new image, even when a later call
    fails and the load is reported as failed. *)
Theorem load_failure_stages (palette : list SDL_Color) (env : SDL_Env)
    (surface : SDL_Surface) (s : State) :
  BitsPerPixel surface = 24 ->
  let s' := snd (loadNewBMP palette env (Some surface) s) in
  let blank := create_index8_surface (w surface) (h surface) in
  let image := quantized_surface palette surface in
  (create_surface_ok env = false ->
   render_surface s' = None /\ render_texture s' = render_texture s) /\
  (create_surface_ok env = true ->
   set_palette_ok env && lock_source_ok env && lock_dest_ok env = false ->
   render_surface s' = Some blank /\ render_texture s' = render_texture s) /\
  (create_surface_ok env = true ->
   set_palette_ok env && lock_source_ok env && lock_dest_ok env = true ->
   create_texture_ok env = false ->
   render_surface s' = Some image /\ render_texture s' = None) /\
  (create_surface_ok env = true ->
   set_palette_ok env && lock_source_ok env && lock_dest_ok env = true ->
   create_texture_ok env = true ->
   render_surface s' = Some image /\
   render_texture s' = Some (SDL_CreateTextureFromSurface image)).
Proof.
  intros Hbpp. cbv zeta. cbn [loadNewBMP]. split; [|split; [|split]].
  - intros Hc. unfold renderNewSurface. rewrite Hc. split; reflexivity.
  - intros Hc Hf. destruct (set_palette_ok env) eqn:Hp.
    + rewrite renderNewSurface_convert_fails;
        [split; reflexivity | exact Hc | exact Hp |].
      apply convert_blank_locked. exact Hf.
    + unfold renderNewSurface. rewrite Hc, Hp. split; reflexivity.
  - intros Hc Hall Ht. rewrite !andb_true_iff in Hall.
    destruct Hall as [[Hp Hls] Hld].
    unfold renderNewSurface. rewrite Hc, Hp.
    cbn [negb render_surface set_render_surface].
    rewrite (convert_blank_result palette env surface Hbpp Hls Hld), Ht.
    split; reflexivity.
  - intros Hc Hall Ht. rewrite !andb_true_iff in Hall.
    destruct Hall as [[Hp Hls] Hld].
    unfold renderNewSurface. rewrite Hc, Hp.
    cbn [negb render_surface set_render_surface].
    rewrite (convert_blank_result palette env surface Hbpp Hls Hld), Ht.
    cbn [conv_ret conv_dest Z.eqb negb render_surface set_render_surface
         render_texture set_render_texture fmap option_fmap option_map].
    destruct (set_logical_size_ok env); [|split; reflexivity].
    destruct (render_copy_ok env); split; reflexivity.
Qed.

Lemma load_failure_stages_witness :
  render_texture
    (snd (loadNewBMP sample_palette
            (mkEnv true true true true false true true) (Some white_1x1)
            (mkState (Some (mkSurface 1 1 8 [7])) None
                     (Some (mkTexture 1 1 [7])) false 0 false 0)))
  = None.
Proof.
  apply (load_failure_stages sample_palette
           (mkEnv true true true true false true true) white_1x1
           (mkState (Some (mkSurface 1 1 8 [7])) None
                    (Some (mkTexture 1 1 [7])) false 0 false 0));
    reflexivity.
Defined.
